(** * Zone-based detection counting of [yolo_runner.py]

    A shallow embedding of the counting pipeline of [yolo_runner.py]:
    zone normalisation, the per-frame counting loop of
    [process_frame_counts], the zone overlays, and the image and video
    runs of [main], together with the properties the specification
    states about them.

    Python dictionaries used as counters are finite maps
    ([gmap string nat]), compared as Python compares dictionaries, by
    their items; a list of such dictionaries updated by index is a list
    updated with stdpp's [alter].  Code that can raise returns a
    [result]; [try: ... except Exception: continue] is a match on it.

    The detector is outside: [model(frame, stream=True)] is a lazy
    generator, read at line 39 after the zones were drawn on the frame,
    and a frame comes with the boxes that reading brings.  A frame itself
    is the list of what has been drawn on it.

    Coordinates are Python integers, unbounded.  Where the code hands
    them to OpenCV they become C values: a 32-bit [int] for the corner of
    a drawing and for a vertex of a polygon, a [float] for the point
    tested against a polygon.  The conversions and the 32-bit arithmetic
    are written out in [Cv]. *)

From stdpp Require Import gmap strings list fin_maps.
From Stdlib Require Import ZArith Lia Permutation.

Local Open Scope Z_scope.

(** ** Python exceptions and fallible computations *)

Module Py.

Inductive exn :=
| TypeError
| ValueError
| IndexError
| CvError.

Inductive result (A : Type) :=
| Ok (a : A)
| Raise (e : exn).
Arguments Ok {A} a.
Arguments Raise {A} e.

Definition bind {A B} (m : result A) (k : A → result B) : result B :=
  match m with
  | Ok a => k a
  | Raise e => Raise e
  end.

(** [for x in xs: acc = body(acc, x)], stopping at the first exception. *)
Fixpoint for_each {A S} (body : S → A → result S) (xs : list A) (s : S)
  : result S :=
  match xs with
  | [] => Ok s
  | x :: xs' => bind (body s x) (for_each body xs')
  end.

Definition is_ok {A} (r : result A) : bool :=
  match r with
  | Ok _ => true
  | Raise _ => false
  end.

(** Values that reach the arithmetic of the overlay code: a [str] or an
    [int]. *)
Inductive value :=
| VStr (s : string)
| VInt (n : Z).

(** The operator [+]: concatenation on two [str], addition on two
    [int], and [TypeError] on a [str] and an [int]. *)
Definition add (a b : value) : result value :=
  match a, b with
  | VInt m, VInt n => Ok (VInt (m + n))
  | VStr s, VStr t => Ok (VStr (s +:+ t))
  | _, _ => Raise TypeError
  end.

(** [a, b, c, d = xs]: [ValueError] unless [xs] yields four items. *)
Definition unpack4 {A} (xs : list A) : result (A * A * A * A) :=
  match xs with
  | [a; b; c; d] => Ok (a, b, c, d)
  | _ => Raise ValueError
  end.

End Py.

Import Py.

#[global] Instance result_ret : MRet result := @Ok.
#[global] Instance result_bind : MBind result :=
  fun A B k m => Py.bind m k.

(** ** JSON values, as [json.load] returns them

    Numbers are integers: zone files hold pixel coordinates.  A JSON
    object is the list of its entries, keys distinct. *)

#[warnings="-register-all"]
Inductive json :=
| JNull
| JBool (b : bool)
| JInt (n : Z)
| JStr (s : string)
| JList (l : list json)
| JDict (kvs : list (string * json)).

Module Json.

Fixpoint get (kvs : list (string * json)) (k : string) : option json :=
  match kvs with
  | [] => None
  | (k', v) :: rest => if decide (k' = k) then Some v else get rest k
  end.

(** [d.get(k, dflt)] *)
Definition get_default (kvs : list (string * json)) (k : string) (dflt : json)
  : json :=
  default dflt (get kvs k).

(** [bool(v)]: Python truthiness. *)
Definition truthy (v : json) : bool :=
  match v with
  | JNull => false
  | JBool b => b
  | JInt n => negb (n =? 0)
  | JStr s => negb (bool_decide (s = ""%string))
  | JList l => negb (bool_decide (l = []))
  | JDict kvs => match kvs with [] => false | _ => true end
  end.

End Json.

(** ** numpy arrays of dtype [int32]: a shape and the row-major data,
    each element a value of a 32-bit [int] *)

Record ndarray := NdArray { shape : list nat; data : list Z }.

(** ** The OpenCV routines the runner calls *)

Module Cv.

Definition point : Type := Z * Z.

(** *** The numbers of C *)

(** The values of a 32-bit [int]. *)
Definition c_int (n : Z) : bool := (- 2 ^ 31 <=? n) && (n <? 2 ^ 31).

Definition c_point (p : point) : bool := c_int p.1 && c_int p.2.

(** What a 32-bit [int] holds after an operation whose exact result is
    [n]: the result modulo [2^32], in two's complement. *)
Definition wrap32 (n : Z) : Z := (n + 2 ^ 31) mod 2 ^ 32 - 2 ^ 31.

(** The integer [n] in a binary floating-point format with a significand
    of [prec] bits: the nearest value of the format, and of two nearest
    ones the one with the even significand.  The exponent range is left
    out: a [float] holds magnitudes below [2^128], and no coordinate read
    from a [float32] tensor is larger. *)
Definition round_to (prec : Z) (n : Z) : Z :=
  let m := Z.abs n in
  let e := Z.log2 m + 1 - prec in
  if e <=? 0 then n
  else
    let q := m / 2 ^ e in
    let r := m mod 2 ^ e in
    let half := 2 ^ (e - 1) in
    let q := if (half <? r) || ((r =? half) && Z.odd q) then q + 1 else q in
    Z.sgn n * (q * 2 ^ e).

(** A C [float] and a C [double] (a Python [float]). *)
Definition float32 (n : Z) : Z := round_to 24 n.
Definition float64 (n : Z) : Z := round_to 53 n.

(** The [Point2f] the binding makes of [(float(cx), float(cy))]: each
    Python [int] becomes a [double] and then a [float]. *)
Definition point2f (c : point) : point :=
  (float32 (float64 c.1), float32 (float64 c.2)).

(** A [Point] of two [int] assigned to a [Point2f]. *)
Definition to_point2f (v : point) : point := (float32 v.1, float32 v.2).

(** [cvRound] of a [float] with an integral value, by the conversion
    instruction of x86-64: the value itself when an [int] holds it, and
    the smallest [int] otherwise. *)
Definition cvRound (x : Z) : Z := if c_int x then x else - 2 ^ 31.

(** *** Drawing *)

(** What the runner draws on a frame.  A frame is the list of the
    strokes painted on it so far; a text is the name and the number it
    is formatted from. *)
Inductive stroke :=
| Polylines (pts : list point)
| Rectangle (p1 p2 : point)
| Circle (c : point)
| PutText (text : json * nat) (org : point).

Definition frame : Type := list stroke.

(** [cv2.rectangle(frame, pt1, pt2, ...)]: the binding takes each corner
    as a [Point] of two [int], and rejects the call when a coordinate
    does not fit. *)
Definition rectangle (f : frame) (p1 p2 : point) : result frame :=
  if c_point p1 && c_point p2 then Ok (f ++ [Rectangle p1 p2])
  else Raise CvError.

(** [cv2.putText(frame, text, org, ...)], likewise. *)
Definition putText (f : frame) (text : json * nat) (org : point)
  : result frame :=
  if c_point org then Ok (f ++ [PutText text org]) else Raise CvError.

(** *** Contours *)

Fixpoint pairs (l : list Z) : list point :=
  match l with
  | x :: y :: rest => (x, y) :: pairs rest
  | _ => []
  end.

(** [Mat::checkVector(2)] on the matrix an [int32] array converts to:
    N points when the array has elements and is N x 2, N x 2 x 1,
    N x 1 x 2 or 1 x N x 2, and otherwise a failed assertion in the
    routine that asked. *)
Definition contour (a : ndarray) : result (list point) :=
  match data a with
  | [] => Raise CvError
  | _ =>
      match shape a with
      | [_; 2%nat] | [_; 2%nat; 1%nat]
      | [_; 1%nat; 2%nat] | [1%nat; _; 2%nat] => Ok (pairs (data a))
      | _ => Raise CvError
      end
  end.

(** *** [pointPolygonTest] *)

(** One turn of the loop of [pointPolygonTest], on the edge from [v0] to
    [v]: the point is reported on the contour, the edge is passed over,
    or the edge is examined and either counted or not.

    The routine has the loop twice, once on [int] and once on [float],
    with the same text; [sub] is the subtraction of the number type.  The
    differences are taken in that type and only then widened, to [int64]
    or to [double], for the two products and their difference.  Two
    factors of 32 bits give products whose difference an [int64] holds;
    two factors of 24 significant bits give products a [double] holds,
    and the rounding of their difference keeps its sign. *)
Inductive edge_verdict :=
| OnContour
| Passed
| Examined (counted : bool).

Definition edge_step (sub : Z → Z → Z) (ip v0 v : point) : edge_verdict :=
  if ((v0.2 <=? ip.2) && (v.2 <=? ip.2))
     || ((ip.2 <? v0.2) && (ip.2 <? v.2))
     || ((v0.1 <? ip.1) && (v.1 <? ip.1))
  then
    if (ip.2 =? v.2)
       && ((ip.1 =? v.1)
           || ((ip.2 =? v0.2)
               && (((v0.1 <=? ip.1) && (ip.1 <=? v.1))
                   || ((v.1 <=? ip.1) && (ip.1 <=? v0.1)))))
    then OnContour
    else Passed
  else
    let dist := sub ip.2 v0.2 * sub v.1 v0.1 - sub ip.1 v0.1 * sub v.2 v0.2 in
    if dist =? 0 then OnContour
    else
      let dist := if v.2 <? v0.2 then - dist else dist in
      Examined (0 <? dist).

Fixpoint edge_loop (sub : Z → Z → Z) (ip v : point) (cnt : list point)
    (counter : nat) : Z :=
  match cnt with
  | [] => if Nat.even counter then -1 else 1
  | c :: rest =>
      match edge_step sub ip v c with
      | OnContour => 0
      | Passed => edge_loop sub ip c rest counter
      | Examined b => edge_loop sub ip c rest (if b then S counter else counter)
      end
  end.

(** Subtraction on [int] and on [float]. *)
Definition int_sub (a b : Z) : Z := wrap32 (a - b).
Definition float_sub (a b : Z) : Z := float32 (a - b).

(** [cv2.pointPolygonTest(contour, pt, False)] for an [int32] contour
    and a [Point2f] with integral coordinates: the sign of the position
    of [pt], [+1] inside, [0] on the contour, [-1] outside.  An empty
    contour gives [-1].  The integer loop runs when the rounded point is
    the point; otherwise the vertices become [Point2f] and the loop on
    [float] runs. *)
Definition pointPolygonTest (a : ndarray) (pt : point) : result Z :=
  cnt ← contour a;
  let ip := (cvRound pt.1, cvRound pt.2) in
  match cnt with
  | [] => Ok (-1)
  | c :: rest =>
      if (float32 ip.1 =? pt.1) && (float32 ip.2 =? pt.2)
      then Ok (edge_loop int_sub ip (List.last rest c) cnt 0)
      else Ok (edge_loop float_sub pt (to_point2f (List.last rest c))
                         (to_point2f <$> cnt) 0)
  end.

(** [cv2.polylines(frame, [pts], True, ...)]: an array without elements
    is passed over. *)
Definition polylines (f : frame) (a : ndarray) : result frame :=
  match data a with
  | [] => Ok f
  | _ => cnt ← contour a; Ok (f ++ [Polylines cnt])
  end.

End Cv.

Import Cv.

(** ** Zones and detections

    A normalised zone is the dictionary [main] builds:
    [{'type': 'rect', 'coords': (x1, y1, x2, y2), 'name': .., 'selected': ..}]
    or [{'type': 'poly', 'pts': <ndarray>, 'name': .., 'selected': ..}]. *)

Inductive zone_shape :=
| Rect (coords : Z * Z * Z * Z)
| Poly (pts : ndarray).

Record zone := Zone {
  z_shape : zone_shape;
  z_name : json;
  z_selected : bool
}.

(** The keys of the dictionary, in insertion order: what iterating over a
    zone yields. *)
Definition zone_keys (z : zone) : list string :=
  match z_shape z with
  | Rect _ => ["type"; "coords"; "name"; "selected"]%string
  | Poly _ => ["type"; "pts"; "name"; "selected"]%string
  end.

(** One box of the detector's output for a frame: the class name
    [model.names[int(box.cls[0])]] and [map(int, box.xyxy[0])].  The
    detector clips a box to the frame, so the corners, the centre and the
    origin of the label are coordinates [cv2.rectangle], [cv2.circle] and
    [cv2.putText] take (lines 47-50). *)
Record detection := Detection {
  cls_name : string;
  xyxy : Z * Z * Z * Z
}.

(** [cx, cy = int((x1 + x2) / 2), int((y1 + y2) / 2)]: the quotient is
    exact in double precision for pixel coordinates, and [int] truncates
    towards zero. *)
Definition center (d : detection) : point :=
  let '(x1, y1, x2, y2) := xyxy d in
  (Z.quot (x1 + x2) 2, Z.quot (y1 + y2) 2).

(** ** [draw_zones_on_frame] *)

Definition draw_zone (f : frame) (z : zone) : result frame :=
  match z_shape z with
  | Poly pts => Cv.polylines f pts
  | Rect (x1, y1, x2, y2) => Cv.rectangle f (x1, y1) (x2, y2)
  end.

Definition draw_zones_on_frame (f : frame) (zones : list zone) : frame :=
  foldl (fun f z =>
           match draw_zone f z with
           | Ok f' => f'
           | Raise _ => f          (* except Exception: continue *)
           end) f zones.

(** ** [process_frame_counts] *)

(** [d[k] = d.get(k, 0) + 1] *)
Definition incr (k : string) (d : gmap string nat) : gmap string nat :=
  <[k := S (default 0%nat (d !! k))]> d.

(** The tests of lines 54-56 and 58-64: does the zone count the point? *)
Definition in_zone (z : zone) (c : point) : result bool :=
  match z_shape z with
  | Rect (zx1, zy1, zx2, zy2) =>
      Ok ((Z.min zx1 zx2 <? c.1) && (c.1 <? Z.max zx1 zx2)
          && (Z.min zy1 zy2 <? c.2) && (c.2 <? Z.max zy1 zy2))
  | Poly pts =>
      val ← Cv.pointPolygonTest pts (Cv.point2f c);
      Ok (0 <=? val)
  end.

(** [for i, z in enumerate(zones): try: ... except Exception: continue] *)
Definition assign_zones (zones : list zone) (cls : string) (c : point)
    (zone_counts : list (gmap string nat)) : list (gmap string nat) :=
  foldl (fun zc '(i, z) =>
           match in_zone z c with
           | Ok true => alter (incr cls) i zc
           | Ok false => zc
           | Raise _ => zc         (* except Exception: continue *)
           end) zone_counts (imap pair zones).

Record counting := Counting {
  c_frame : frame;
  zone_counts : list (gmap string nat);
  class_counts : gmap string nat;
  det_index : nat
}.

(** The body of [for box in result.boxes]. *)
Definition count_box (zones : list zone) (st : counting) (box : detection)
  : counting :=
  let cls := cls_name box in
  let class_counts := incr cls (class_counts st) in
  let '(x1, y1, x2, y2) := xyxy box in
  let c := center box in
  let f := c_frame st
             ++ [Rectangle (x1, y1) (x2, y2); Circle c;
                 PutText (JStr cls, default 0%nat (class_counts !! cls))
                         (x1, y1 - 10)] in
  {| c_frame := f;
     zone_counts := assign_zones zones cls c (zone_counts st);
     class_counts := class_counts;
     det_index := S (det_index st) |}.

(** Lines 33-68: the state when the loop over the boxes ends. *)
Definition count_boxes (f : frame) (zones : list zone) (boxes : list detection)
  : counting :=
  foldl (count_box zones)
        {| c_frame := draw_zones_on_frame f zones;
           zone_counts := replicate (length zones) ∅;
           class_counts := ∅;
           det_index := 0 |}
        boxes.

(** [cv2.putText(frame, text, (x, y), ...)]: the origin must be two
    integers. *)
Definition putText (f : frame) (text : json * nat) (x y : value)
  : result frame :=
  match x, y with
  | VInt x, VInt y => Cv.putText f text (x, y)
  | _, _ => Raise TypeError
  end.

(** Lines 71-77: the per-class totals of every zone, written on the
    frame.  [x1, y1, x2, y2 = z] iterates over the zone, a dictionary: it
    binds its keys.  The items of a counter are taken in the order of the
    map, not of insertion; the first one already decides the outcome. *)
Definition annotate_zone (zone_counts : list (gmap string nat)) (f : frame)
    (iz : nat * zone) : result frame :=
  '(x1, y1, x2, y2) ← unpack4 (VStr <$> zone_keys iz.2);
  counts ← from_option Ok (Raise IndexError) (zone_counts !! iz.1);
  '(f, _) ← for_each (fun '(f, y_off) '(cls, cnt) =>
                        x ← Py.add x1 (VInt 4);
                        y ← Py.add y1 (VInt y_off);
                        f ← putText f (JStr cls, cnt) x y;
                        Ok (f, y_off + 20))
                     (map_to_list counts) (f, 20);
  Ok f.

Definition annotate_zone_totals (zones : list zone)
    (zone_counts : list (gmap string nat)) (f : frame) : result frame :=
  for_each (annotate_zone zone_counts) (imap pair zones) f.

(** [sum(d.values())] *)
Definition sum_values (d : gmap string nat) : nat :=
  map_fold (fun _ v acc => (v + acc)%nat) 0%nat d.

Record frame_result := FrameResult {
  r_frame : frame;
  r_zone_counts : list (gmap string nat);
  r_class_counts : gmap string nat;
  r_total : nat
}.

Definition process_frame_counts (f : frame) (boxes : list detection)
    (zones : list zone) : result frame_result :=
  let st := count_boxes f zones boxes in
  f ← annotate_zone_totals zones (zone_counts st) (c_frame st);
  let total := sum_values (class_counts st) in
  Ok {| r_frame := f;
        r_zone_counts := zone_counts st;
        r_class_counts := class_counts st;
        r_total := total |}.

(** ** [main]: zone normalisation (lines 131-166) *)

Section Normalisation.

(** [int(s)] for a [str], and [np.array(l, dtype=np.int32)] for a list:
    the two conversions the normalisation leaves to Python and numpy. *)
Variable int_of_str : string → result Z.
Variable np_array : list json → result ndarray.

(** [int(v)] *)
Definition py_int (v : json) : result Z :=
  match v with
  | JInt n => Ok n
  | JBool b => Ok (if b then 1 else 0)
  | JStr s => int_of_str s
  | JNull | JList _ | JDict _ => Raise TypeError
  end.

(** ['k' in z and isinstance(z['k'], (list, tuple)) and len(z['k']) > 2] *)
Definition vertex_list (z : list (string * json)) (k : string)
  : option (list json) :=
  match Json.get z k with
  | Some (JList l) => if decide (2 < length l)%nat then Some l else None
  | _ => None
  end.

(** Lines 137-154: a record that is a dictionary. *)
Definition normalize_dict (z : list (string * json)) : result zone :=
  let name := Json.get_default z "name" (JStr "") in
  let sel := Json.get_default z "selected" (JBool true) in
  pts ← match vertex_list z "points" with
        | Some l => a ← np_array l; Ok (Some a)
        | None =>
            match vertex_list z "pts" with
            | Some l => a ← np_array l; Ok (Some a)
            | None => Ok None
            end
        end;
  match pts with
  | Some a => Ok (Zone (Poly a) name (Json.truthy sel))
  | None =>
      x ← py_int (Json.get_default z "x" (JInt 0));
      y ← py_int (Json.get_default z "y" (JInt 0));
      w ← py_int (Json.get_default z "w" (JInt 0));
      h ← py_int (Json.get_default z "h" (JInt 0));
      Ok (Zone (Rect (x, y, x + w, y + h)) name (Json.truthy sel))
  end.

(** [a.shape[i]] *)
Definition shape_at (a : ndarray) (i : nat) : result nat :=
  from_option Ok (Raise IndexError) (shape a !! i).

(** Lines 161-164, the body of the [try]. *)
Definition raw_polygon (l : list json) : result (option zone) :=
  a ← np_array l;
  s0 ← shape_at a 0;
  if decide (2 < s0)%nat then
    s1 ← shape_at a 1;
    if decide (2 ≤ s1)%nat
    then Ok (Some (Zone (Poly a) (JStr "") true))
    else Ok None
  else Ok None.

(** The body of [for z in zones]: the zone to append, if any. *)
Definition normalize_zone (z : json) : result (option zone) :=
  match z with
  | JDict kvs => z' ← normalize_dict kvs; Ok (Some z')
  | JList l =>
      match l with
      | z0 :: z1 :: z2 :: z3 :: _ =>            (* len(z) >= 4 *)
          x1 ← py_int z0;
          y1 ← py_int z1;
          x2 ← py_int z2;
          y2 ← py_int z3;
          Ok (Some (Zone (Rect (x1, y1, x2, y2)) (JStr "") true))
      | [_; _; _] =>                            (* len(z) > 2 *)
          match raw_polygon l with
          | Ok r => Ok r
          | Raise _ => Ok None                  (* except Exception: continue *)
          end
      | _ => Ok None
      end
  | _ => Ok None
  end.

Definition normalize_zones (zones : list json) : result (list zone) :=
  for_each (fun normalized z =>
              r ← normalize_zone z;
              Ok (normalized ++ option_list r)) zones [].

End Normalisation.

(** ** [main]: the image and the video run (lines 168-257) *)

(** Why a run ends without a summary, and the message the run prints
    for it: for an image or a video that cannot be read, the message ends
    with the input path. *)
Inductive failure :=
| CouldNotReadImage
| CouldNotOpenVideo
| UnsupportedInputType.

Definition message (why : failure) (input_path : string) : string :=
  match why with
  | CouldNotReadImage => "Could not read image: " +:+ input_path
  | CouldNotOpenVideo => "Could not open video: " +:+ input_path
  | UnsupportedInputType => "Unsupported input type"
  end.

(** What a run prints: [json.dumps] of a failure, with its [message] for
    the input path of the run, or of the summary (the annotated path left
    out). *)
Inductive output :=
| Failure (why : failure)
| Success (zones_meta : list (json * gmap string nat))
          (class_counts : gmap string nat) (total : nat).

(** What a run does to the world, in order. *)
Inductive event :=
| EvImwrite (f : frame)
| EvCapture
| EvWriter
| EvWriterFrame (f : frame)
| EvCaptureRelease
| EvWriterRelease
| EvPrint (o : output).

(** A video: whether the capture opened, and what each [cap.read()]
    brings, the boxes the detector finds on the frame read or [None] when
    the read fails.  Reading past the end is the end of the stream. *)
Record video := VideoStream {
  opened : bool;
  reads : list (option (list detection))
}.

(** The input, classified by [is_image_file] and [is_video_file]; an image
    is what [cv2.imread] returns, [None] when unreadable. *)
Inductive media :=
| Image (img : option (list detection))
| VideoFile (v : video)
| Unsupported.

(** [cv2.boundingRect(pts)], its corner only. *)
Definition boundingRect_corner (a : ndarray) : result point :=
  cnt ← Cv.contour a;
  match cnt with
  | [] => Ok (0, 0)
  | c :: rest =>
      Ok (foldl Z.min c.1 (fst <$> rest), foldl Z.min c.2 (snd <$> rest))
  end.

(** Lines 180-195: the name and the total of every zone, on the image. *)
Definition overlay_zone (zone_counts : list (gmap string nat)) (f : frame)
    (iz : nat * zone) : result frame :=
  let counts := default ∅ (zone_counts !! iz.1) in
  let total_in_zone := sum_values counts in
  '(tx, ty) ← match z_shape iz.2 with
              | Rect (x1, y1, x2, y2) => Ok (x1 + 4, y1 + 16)
              | Poly pts =>
                  '(b_x, b_y) ← boundingRect_corner pts;
                  Ok (b_x + 4, b_y + 16)
              end;
  Cv.putText f (z_name iz.2, total_in_zone) (tx, ty).

(** Lines 198-200 and 250-252. *)
Definition zones_meta (zones : list zone) (counts : list (gmap string nat))
  : list (json * gmap string nat) :=
  imap (fun idx z => (z_name z, default ∅ (counts !! idx))) zones.

(** [acc[cls] = acc.get(cls, 0) + cnt] for every item of [d]. *)
Definition add_counts (acc d : gmap string nat) : gmap string nat :=
  map_fold (fun cls cnt acc => <[cls := (default 0 (acc !! cls) + cnt)%nat]> acc)
           acc d.

Record session := Session {
  cumulative_zone_counts : list (gmap string nat);
  cumulative_total : nat;
  overall_class_counts : option (gmap string nat)
}.

(** The session a video run starts from (lines 220-221). *)
Definition session_start (n_zones : nat) : session :=
  {| cumulative_zone_counts := replicate n_zones ∅;
     cumulative_total := 0;
     overall_class_counts := None |}.

(** Lines 229-244: one frame's counts added to the running ones. *)
Definition accumulate (n_zones : nat) (s : session) (r : frame_result)
  : session :=
  {| cumulative_total := cumulative_total s + r_total r;
     cumulative_zone_counts :=
       foldl (fun czc i =>
                let frame_zone_counts := default ∅ (r_zone_counts r !! i) in
                alter (fun acc => add_counts acc frame_zone_counts) i czc)
             (cumulative_zone_counts s) (seq 0 n_zones);
     overall_class_counts :=
       Some (add_counts (default ∅ (overall_class_counts s))
                        (r_class_counts r)) |}.

(** Lines 223-245: [while True], writing down what it does. *)
Fixpoint frame_loop (zones : list zone) (reads : list (option (list detection)))
    (s : session) (trace : list event) : list event * result session :=
  match reads with
  | [] => (trace, Ok s)                     (* end of stream: break *)
  | None :: _ => (trace, Ok s)             (* read failure: break *)
  | Some boxes :: rest =>
      match process_frame_counts [] boxes zones with
      | Raise e => (trace, Raise e)
      | Ok r =>
          frame_loop zones rest (accumulate (length zones) s r)
                     (trace ++ [EvWriterFrame (r_frame r)])
      end
  end.

(** Lines 206-255. *)
Definition run_video (selected_zones : list zone) (v : video)
  : list event * result unit :=
  if negb (opened v) then
    ([EvCapture; EvPrint (Failure CouldNotOpenVideo)], Ok ())
  else
    let s0 := session_start (length selected_zones) in
    match frame_loop selected_zones (reads v) s0 [EvCapture; EvWriter] with
    | (trace, Raise e) => (trace, Raise e)
    | (trace, Ok s) =>
        (trace ++ [EvCaptureRelease; EvWriterRelease;
                   EvPrint (Success (zones_meta selected_zones
                                                (cumulative_zone_counts s))
                                    (default ∅ (overall_class_counts s))
                                    (cumulative_total s))],
         Ok ())
    end.

(** Lines 171-203. *)
Definition run_image (selected_zones : list zone) (img : option (list detection))
  : list event * result unit :=
  match img with
  | None => ([EvPrint (Failure CouldNotReadImage)], Ok ())
  | Some boxes =>
      match
        r ← process_frame_counts [] boxes selected_zones;
        f ← for_each (overlay_zone (r_zone_counts r))
                     (imap pair selected_zones) (r_frame r);
        Ok (r, f)
      with
      | Raise e => ([], Raise e)
      | Ok (r, f) =>
          ([EvImwrite f;
            EvPrint (Success (zones_meta selected_zones (r_zone_counts r))
                             (r_class_counts r) (r_total r))],
           Ok ())
      end
  end.

Section Main.

Variable int_of_str : string → result Z.
Variable np_array : list json → result ndarray.

(** [main], from the zone records read from the zone file ([[]] when it
    is missing or unreadable) and the input media. *)
Definition main (zones : list json) (input : media)
  : list event * result unit :=
  match normalize_zones int_of_str np_array zones with
  | Raise e => ([], Raise e)
  | Ok normalized_zones =>
      let selected_zones := List.filter z_selected normalized_zones in
      match input with
      | Image img => run_image selected_zones img
      | VideoFile v => run_video selected_zones v
      | Unsupported => ([EvPrint (Failure UnsupportedInputType)], Ok ())
      end
  end.

End Main.

(** ** [is_image_file], [is_video_file] and the dispatch of [main] *)

Section FileKind.

(** [os.path.splitext(path)[1]] and [str.lower], left to Python. *)
Variable splitext_ext : string → string.
Variable lower : string → string.

Definition is_image_file (path : string) : bool :=
  bool_decide (lower (splitext_ext path)
               ∈ [".jpg"; ".jpeg"; ".png"; ".bmp"; ".tiff"; ".webp"]%string).

Definition is_video_file (path : string) : bool :=
  bool_decide (lower (splitext_ext path)
               ∈ [".mp4"; ".avi"; ".mov"; ".mkv"; ".wmv"; ".flv"; ".webm"]%string).

(** Lines 171, 206 and 257: what [main] does with the input path, from
    what [cv2.imread] and [cv2.VideoCapture] would bring for it. *)
Definition media_of (input_path : string) (img : option (list detection))
    (v : video) : media :=
  if is_image_file input_path then Image img
  else if is_video_file input_path then VideoFile v
  else Unsupported.

End FileKind.

(** ** [main]: the zone file (lines 116-135) *)

(** A path of the file system, as [os.path.exists] and
    [json.load(open(path))] see it. *)
Inductive file :=
| Absent
| Unreadable
| Holds (j : json).

(** Lines 117-129.  An argument that is missing or empty is false. *)
Definition load_zones (files : string → file) (zones_file_arg : option string)
    (cwd_zones_json : string) : json :=
  let load path :=
    match files path with
    | Holds j => j
    | _ => JList []                       (* except Exception: zones = [] *)
    end in
  let exists_ path :=
    match files path with
    | Absent => false
    | _ => true
    end in
  if match zones_file_arg with
     | Some arg => negb (bool_decide (arg = ""%string)) && exists_ arg
     | None => false
     end
  then load (default ""%string zones_file_arg)
  else if exists_ cwd_zones_json then load cwd_zones_json
  else JList [].

Section ZoneFile.

Variable int_of_str : string → result Z.
Variable np_array : list json → result ndarray.
(** The characters of a [str], each a [str] of length one. *)
Variable chars : string → list string.

(** [for z in zones], for whatever [json.load] returned. *)
Definition iterate (zones : json) : result (list json) :=
  match zones with
  | JList l => Ok l
  | JDict kvs => Ok (JStr <$> kvs.*1)
  | JStr s => Ok (JStr <$> chars s)
  | JNull | JBool _ | JInt _ => Raise TypeError
  end.

(** Lines 116-257: [main] once the model is loaded. *)
Definition main_with_zone_file (files : string → file)
    (zones_file_arg : option string) (cwd_zones_json : string)
    (input : media) : list event * result unit :=
  match iterate (load_zones files zones_file_arg cwd_zones_json) with
  | Raise e => ([], Raise e)
  | Ok records => main int_of_str np_array records input
  end.

End ZoneFile.

(** ** Reference notions the properties are stated with *)

(** How many boxes carry the class [c]; how many of them the zone [z]
    counts. *)
Definition has_class (c : string) (d : detection) : bool :=
  bool_decide (cls_name d = c).

Definition counted (z : zone) (p : point) : bool :=
  match in_zone z p with
  | Ok b => b
  | Raise _ => false
  end.

Definition count_cls (c : string) (boxes : list detection) : nat :=
  length (List.filter (has_class c) boxes).

Definition count_in (z : zone) (c : string) (boxes : list detection) : nat :=
  length (List.filter (fun d => has_class c d && counted z (center d)) boxes).

(** A counter that was raised [n] times: absent as long as [n] is zero. *)
Definition tally (n : nat) : option nat :=
  match n with
  | O => None
  | S _ => Some n
  end.

(** The crossing-number test, on integers.  The edges of the closed
    polygon join each vertex to the next and the last to the first. *)
Fixpoint edges_from (v : point) (cnt : list point) : list (point * point) :=
  match cnt with
  | [] => []
  | c :: rest => (v, c) :: edges_from c rest
  end.

Definition polygon_edges (cnt : list point) : list (point * point) :=
  match cnt with
  | [] => []
  | c :: rest => edges_from (List.last rest c) cnt
  end.

(** [p] lies on the segment from [a] to [b]: on its line, within its
    bounding box. *)
Definition on_segment (p : point) (e : point * point) : bool :=
  let '(a, b) := e in
  ((p.1 - a.1) * (b.2 - a.2) =? (p.2 - a.2) * (b.1 - a.1))
  && (Z.min a.1 b.1 <=? p.1) && (p.1 <=? Z.max a.1 b.1)
  && (Z.min a.2 b.2 <=? p.2) && (p.2 <=? Z.max a.2 b.2).

(** The horizontal ray from [p] towards larger [x] crosses the edge: the
    edge spans the height of [p], its lower end included and its upper
    end not, and meets that height strictly to the right of [p]. *)
Definition ray_crosses (p : point) (e : point * point) : bool :=
  let '(a, b) := e in
  if (a.2 <=? p.2) && (p.2 <? b.2)
  then (p.1 - a.1) * (b.2 - a.2) <? (p.2 - a.2) * (b.1 - a.1)
  else if (b.2 <=? p.2) && (p.2 <? a.2)
  then (p.1 - b.1) * (a.2 - b.2) <? (p.2 - b.2) * (a.1 - b.1)
  else false.

Definition crossing_number (p : point) (cnt : list point) : nat :=
  length (List.filter (ray_crosses p) (polygon_edges cnt)).

(** Inside by the parity of the crossing number, or on the boundary. *)
Definition polygon_member (cnt : list point) (p : point) : bool :=
  existsb (on_segment p) (polygon_edges cnt) || Nat.odd (crossing_number p cnt).

(** Does the loop of [pointPolygonTest], in exact arithmetic, stop on this
    edge with [0]? *)
Definition reports (p : point) (e : point * point) : bool :=
  match edge_step Z.sub p e.1 e.2 with
  | OnContour => true
  | _ => false
  end.

(** A coordinate of moderate size: the difference of two of them is a
    value of a 32-bit [int]. *)
Definition moderate (x : Z) : Prop := - 2 ^ 30 ≤ x < 2 ^ 30.

(** The key-wise sum of two counters, and of a list of counters. *)
Definition keywise_sum (a b : gmap string nat) : gmap string nat :=
  union_with (fun x y => Some (x + y)%nat) a b.

Definition keywise_sum_list (ds : list (gmap string nat)) : gmap string nat :=
  foldl keywise_sum ∅ ds.

(** The dictionary of zone [i] in a frame's result. *)
Definition zone_counts_at (i : nat) (r : frame_result) : gmap string nat :=
  default ∅ (r_zone_counts r !! i).

(** The frames a video run reads before the stream ends or a read
    fails. *)
Fixpoint frames_read (reads : list (option (list detection)))
  : list (list detection) :=
  match reads with
  | Some boxes :: rest => boxes :: frames_read rest
  | _ => []
  end.

(** What the loop draws for a box that comes after the boxes [seen]: its
    rectangle, its centre, and its class name with the rank of the box
    among the boxes of its class. *)
Definition box_strokes (seen : list detection) (box : detection) : list stroke :=
  let '(x1, y1, x2, y2) := xyxy box in
  [Rectangle (x1, y1) (x2, y2); Circle (center box);
   PutText (JStr (cls_name box), S (count_cls (cls_name box) seen))
           (x1, y1 - 10)].

Definition boxes_strokes (boxes : list detection) : list stroke :=
  concat (imap (fun k box => box_strokes (take k boxes) box) boxes).

(** A rectangle with no integer point strictly between two of its
    opposite sides. *)
Definition thin (z : zone) : Prop :=
  match z_shape z with
  | Rect (x1, y1, x2, y2) => Z.abs (x2 - x1) ≤ 1 ∨ Z.abs (y2 - y1) ≤ 1
  | Poly _ => False
  end.

(** What a run printed. *)
Definition printed (trace : list event) : list output :=
  omap (fun ev => match ev with EvPrint o => Some o | _ => None end) trace.

(** The image files a run wrote. *)
Definition images_written (trace : list event) : list frame :=
  omap (fun ev => match ev with EvImwrite f => Some f | _ => None end) trace.

(** How many boxes the zone [z] counts, whatever their class. *)
Definition count_any (z : zone) (boxes : list detection) : nat :=
  length (List.filter (fun d => counted z (center d)) boxes).

(** * Properties *)

(** ** The counters of one frame *)

Lemma count_box_class_counts zones st box :
  class_counts (count_box zones st box) = incr (cls_name box) (class_counts st).
Proof. unfold count_box. destruct (xyxy box) as [[[? ?] ?] ?]. reflexivity. Qed.

Lemma count_box_zone_counts zones st box :
  zone_counts (count_box zones st box)
  = assign_zones zones (cls_name box) (center box) (zone_counts st).
Proof. unfold count_box. destruct (xyxy box) as [[[? ?] ?] ?]. reflexivity. Qed.

Lemma lookup_incr k (d : gmap string nat) c :
  incr k d !! c
  = if decide (k = c) then Some (S (default 0%nat (d !! c))) else d !! c.
Proof.
  unfold incr. case_decide as Hk.
  - subst. apply lookup_insert_eq.
  - by apply lookup_insert_ne.
Qed.

Lemma assign_zones_lookup zones cls p (zc : list (gmap string nat)) i :
  assign_zones zones cls p zc !! i
  = match zones !! i with
    | Some z => (if counted z p then incr cls else id) <$> zc !! i
    | None => zc !! i
    end.
Proof.
  unfold assign_zones. revert i.
  induction zones as [|z zones IH] using rev_ind; intros i.
  - by destruct i.
  - rewrite imap_app, foldl_app. simpl. rewrite Nat.add_0_r.
    set (prev := foldl _ zc (imap pair zones)) in *.
    assert (Hz : counted z p = match in_zone z p with
                               | Ok true => true | _ => false end).
    { unfold counted. by destruct (in_zone z p) as [[]|]. }
    destruct (decide (i = length zones)) as [->|Hi].
    + rewrite list_lookup_middle by done. rewrite Hz.
      specialize (IH (length zones)).
      rewrite (lookup_ge_None_2 zones) in IH by lia.
      destruct (in_zone z p) as [[]|]; rewrite <- ?IH.
      * apply list_lookup_alter_eq.
      * by destruct (prev !! length zones).
      * by destruct (prev !! length zones).
    + assert (Hprev : (match in_zone z p with
                       | Ok true => alter (incr cls) (length zones) prev
                       | _ => prev end) !! i = prev !! i).
      { destruct (in_zone z p) as [[]|]; try done.
        by apply list_lookup_alter_ne. }
      etrans; [|etrans; [exact (IH i)|]].
      * destruct (in_zone z p) as [[]|]; try done.
      * destruct (decide (i < length zones)%nat).
        -- by rewrite lookup_app_l.
        -- rewrite (lookup_ge_None_2 zones) by lia.
           rewrite (lookup_ge_None_2 (zones ++ [z])); [done|].
           rewrite length_app. simpl. lia.
Qed.

Lemma default_tally n : default 0%nat (tally n) = n.
Proof. by destruct n. Qed.

Lemma count_cls_snoc c boxes box :
  count_cls c (boxes ++ [box])
  = (count_cls c boxes + if has_class c box then 1 else 0)%nat.
Proof.
  unfold count_cls. rewrite List.filter_app, length_app. simpl.
  by destruct (has_class c box).
Qed.

Lemma count_in_snoc z c boxes box :
  count_in z c (boxes ++ [box])
  = (count_in z c boxes
     + if has_class c box && counted z (center box) then 1 else 0)%nat.
Proof.
  unfold count_in. rewrite List.filter_app, length_app. simpl.
  by destruct (has_class c box && counted z (center box)).
Qed.

(** After the loop, the counter of a class holds the number of boxes of
    that class. *)
Lemma count_boxes_class_counts f zones boxes c :
  class_counts (count_boxes f zones boxes) !! c = tally (count_cls c boxes).
Proof.
  unfold count_boxes.
  induction boxes as [|box boxes IH] using rev_ind; [done|].
  rewrite foldl_app. simpl.
  rewrite count_box_class_counts, lookup_incr, IH, default_tally, count_cls_snoc.
  unfold has_class. case_decide; case_bool_decide; try congruence.
  - by rewrite Nat.add_1_r.
  - by rewrite Nat.add_0_r.
Qed.

Lemma assign_zones_length zones cls p (zc : list (gmap string nat)) :
  length (assign_zones zones cls p zc) = length zc.
Proof.
  unfold assign_zones. generalize (imap pair zones). intros l. revert zc.
  induction l as [|[i z] l IHl]; intros zc; simpl; [done|].
  rewrite IHl. destruct (in_zone z p) as [[]|]; try done.
  apply length_alter.
Qed.

Lemma count_boxes_zone_counts_length f zones boxes :
  length (zone_counts (count_boxes f zones boxes)) = length zones.
Proof.
  unfold count_boxes.
  induction boxes as [|box boxes IH] using rev_ind.
  - simpl. apply length_replicate.
  - rewrite foldl_app. simpl.
    by rewrite count_box_zone_counts, assign_zones_length.
Qed.

(** After the loop, the counter of a class in the dictionary of zone [i]
    holds the number of boxes of that class the zone counts. *)
Lemma count_boxes_zone_counts f zones boxes i z :
  zones !! i = Some z →
  ∃ m, zone_counts (count_boxes f zones boxes) !! i = Some m
       ∧ ∀ c, m !! c = tally (count_in z c boxes).
Proof.
  intros Hz. unfold count_boxes.
  induction boxes as [|box boxes IH] using rev_ind.
  - simpl. exists ∅. split; [|done].
    apply lookup_replicate_2. by eapply lookup_lt_Some.
  - destruct IH as (m & Hm & Hc).
    rewrite foldl_app. simpl.
    rewrite count_box_zone_counts, assign_zones_lookup, Hz, Hm. simpl.
    eexists. split; [done|]. intros c.
    rewrite count_in_snoc. unfold has_class.
    destruct (counted z (center box)).
    + rewrite lookup_incr, Hc, default_tally.
      case_decide; case_bool_decide; try congruence; simpl.
      * by rewrite Nat.add_1_r.
      * by rewrite Nat.add_0_r.
    + simpl. rewrite Hc, andb_false_r. by rewrite Nat.add_0_r.
Qed.

(** ** The total of a frame *)

Lemma sum_values_insert_fresh k v (d : gmap string nat) :
  d !! k = None → sum_values (<[k := v]> d) = (v + sum_values d)%nat.
Proof.
  intros Hk. unfold sum_values.
  rewrite map_fold_insert_L; [done| |done]. intros; lia.
Qed.

Lemma sum_values_delete k (d : gmap string nat) :
  sum_values d = (default 0%nat (d !! k) + sum_values (delete k d))%nat.
Proof.
  destruct (d !! k) as [x|] eqn:Hk; simpl.
  - rewrite <- (insert_delete_id d k x) at 1 by done.
    apply sum_values_insert_fresh, lookup_delete_eq.
  - by rewrite delete_id.
Qed.

Lemma sum_values_incr k (d : gmap string nat) :
  sum_values (incr k d) = S (sum_values d).
Proof.
  unfold incr. rewrite <- insert_delete_eq.
  rewrite sum_values_insert_fresh by apply lookup_delete_eq.
  rewrite (sum_values_delete k d). lia.
Qed.

Lemma count_boxes_total f zones boxes :
  sum_values (class_counts (count_boxes f zones boxes)) = length boxes.
Proof.
  unfold count_boxes.
  induction boxes as [|box boxes IH] using rev_ind; [done|].
  rewrite foldl_app, length_app. simpl.
  rewrite count_box_class_counts, sum_values_incr, IH. lia.
Qed.

(** ** The zone totals written on the frame (lines 71-77) *)

Lemma for_each_fixed {A S} (body : S → A → result S) xs s e :
  (∀ x, x ∈ xs → body s x = Ok s ∨ body s x = Raise e) →
  for_each body xs s
  = if forallb (fun x => is_ok (body s x)) xs then Ok s else Raise e.
Proof.
  induction xs as [|x xs IH]; intros Hbody; simpl; [done|].
  destruct (Hbody x) as [Hx|Hx]; [set_solver| |]; rewrite Hx; simpl; [|done].
  apply IH. set_solver.
Qed.

(** Iterating over a zone yields the four keys of its dictionary, so
    [x1] is the string ['type']; with one class or more to write down,
    [x1 + 4] raises. *)
Lemma annotate_zone_spec zc f i z (m : gmap string nat) :
  zc !! i = Some m →
  annotate_zone zc f (i, z) = if decide (m = ∅) then Ok f else Raise TypeError.
Proof.
  intros Hm. unfold annotate_zone. simpl. rewrite Hm.
  assert (Hkeys : unpack4 (VStr <$> zone_keys z)
                  = Ok (VStr "type", VStr (match z_shape z with
                                           | Rect _ => "coords"
                                           | Poly _ => "pts"
                                           end),
                        VStr "name", VStr "selected")).
  { unfold zone_keys. by destruct (z_shape z). }
  rewrite Hkeys. simpl.
  destruct (map_to_list m) as [|[cls cnt] items] eqn:Hitems; simpl.
  - apply map_to_list_empty_iff in Hitems. by rewrite decide_True.
  - rewrite decide_False; [done|].
    intros ->. by rewrite map_to_list_empty in Hitems.
Qed.

Lemma annotate_zone_totals_spec zones (zc : list (gmap string nat)) f :
  length zc = length zones →
  annotate_zone_totals zones zc f
  = if bool_decide (Forall (fun m => m = ∅) zc) then Ok f else Raise TypeError.
Proof.
  intros Hlen. unfold annotate_zone_totals.
  assert (Hbody : ∀ i z, zones !! i = Some z →
            ∃ m, zc !! i = Some m
                 ∧ annotate_zone zc f (i, z)
                   = if decide (m = ∅) then Ok f else Raise TypeError).
  { intros i z Hz. destruct (lookup_lt_is_Some_2 zc i) as [m Hm].
    { rewrite Hlen. by eapply lookup_lt_Some. }
    exists m. split; [done|]. by apply annotate_zone_spec. }
  rewrite (for_each_fixed _ _ _ TypeError).
  - match goal with |- (if ?a then _ else _) = (if ?b then _ else _) =>
      assert (a = b) as ->; [|done] end.
    apply eq_iff_eq_true.
    rewrite forallb_forall, bool_decide_eq_true, Forall_forall. split.
    + intros Hall m Hin. apply list_elem_of_lookup in Hin as [i Hi].
      destruct (lookup_lt_is_Some_2 zones i) as [z Hz].
      { rewrite <- Hlen. by eapply lookup_lt_Some. }
      destruct (Hbody i z Hz) as (m' & Hm' & Hann).
      assert (m' = m) as -> by congruence.
      specialize (Hall (i, z)). rewrite Hann in Hall.
      case_decide; [done|]. simpl in Hall.
      assert (false = true); [|done]. apply Hall.
      apply list_elem_of_In, elem_of_lookup_imap. eauto.
    + intros Hall [i z] Hin.
      apply list_elem_of_In, elem_of_lookup_imap in Hin
        as (i' & z' & [= <- <-] & Hz).
      destruct (Hbody i z Hz) as (m & Hm & ->).
      rewrite decide_True; [done|]. apply Hall. by eapply list_elem_of_lookup_2.
  - intros [i z] Hin.
    apply elem_of_lookup_imap in Hin as (i' & z' & [= <- <-] & Hz).
    destruct (Hbody i z Hz) as (m & Hm & ->). case_decide; eauto.
Qed.

(** [process_frame_counts] returns exactly when no zone counted a box. *)
Lemma process_frame_counts_spec f boxes zones :
  let st := count_boxes f zones boxes in
  process_frame_counts f boxes zones
  = if bool_decide (Forall (fun m => m = ∅) (zone_counts st))
    then Ok {| r_frame := c_frame st;
               r_zone_counts := zone_counts st;
               r_class_counts := class_counts st;
               r_total := length boxes |}
    else Raise TypeError.
Proof.
  intros st. unfold process_frame_counts. fold st.
  rewrite annotate_zone_totals_spec
    by apply count_boxes_zone_counts_length.
  case_bool_decide; simpl; [|done].
  unfold st. by rewrite count_boxes_total.
Qed.

(** ** The polygon test *)

Ltac bool_to_prop :=
  repeat match goal with
         | H : _ = false |- _ => apply not_true_iff_false in H
         end;
  repeat first [ rewrite andb_true_iff in * | rewrite orb_true_iff in *
               | rewrite Z.leb_le in * | rewrite Z.ltb_lt in *
               | rewrite Z.eqb_eq in * ].

Lemma on_segment_true (p a b : point) :
  on_segment p (a, b) = true
  ↔ (p.1 - a.1) * (b.2 - a.2) = (p.2 - a.2) * (b.1 - a.1)
    ∧ Z.min a.1 b.1 ≤ p.1 ≤ Z.max a.1 b.1
    ∧ Z.min a.2 b.2 ≤ p.2 ≤ Z.max a.2 b.2.
Proof. unfold on_segment. bool_to_prop. tauto. Qed.

Lemma ray_crosses_true (p a b : point) :
  ray_crosses p (a, b) = true
  ↔ (a.2 ≤ p.2 < b.2 ∧ (p.1 - a.1) * (b.2 - a.2) < (p.2 - a.2) * (b.1 - a.1))
    ∨ (b.2 ≤ p.2 < a.2 ∧ (p.1 - b.1) * (a.2 - b.2) < (p.2 - b.2) * (a.1 - b.1)).
Proof.
  unfold ray_crosses.
  destruct ((a.2 <=? p.2) && (p.2 <? b.2)) eqn:Hup.
  { bool_to_prop. split; [tauto|]. intros [?|?]; [tauto|lia]. }
  destruct ((b.2 <=? p.2) && (p.2 <? a.2)) eqn:Hdown.
  { bool_to_prop. split; [tauto|]. intros [?|?]; [lia|tauto]. }
  bool_to_prop. split; [done|]. intros [?|?]; tauto.
Qed.

(** The loop in exact arithmetic. *)
Lemma edge_step_sound (p v0 v : point) :
  match edge_step Z.sub p v0 v with
  | OnContour => on_segment p (v0, v) = true
  | Passed => ray_crosses p (v0, v) = false
              ∧ (on_segment p (v0, v) = true → p = v0)
  | Examined b => b = ray_crosses p (v0, v) ∧ on_segment p (v0, v) = false
  end.
Proof.
  destruct p as [px py], v0 as [ax ay], v as [bx by'].
  unfold edge_step. cbn [fst snd].
  destruct (((ay <=? py) && (by' <=? py)) || ((py <? ay) && (py <? by'))
            || ((ax <? px) && (bx <? px))) eqn:Hskip.
  - destruct ((py =? by') && ((px =? bx) || ((py =? ay) &&
       (((ax <=? px) && (px <=? bx)) || ((bx <=? px) && (px <=? ax))))))
      eqn:Hcheck.
    + apply on_segment_true. simpl. bool_to_prop.
      destruct Hcheck as [H1 [H2|[H3 H4]]]; lia.
    + split.
      * apply not_true_iff_false. rewrite ray_crosses_true. simpl.
        bool_to_prop. intros [[Hy Hx]|[Hy Hx]];
          destruct Hskip as [[?|?]|?]; try lia; nia.
      * rewrite on_segment_true. simpl. intros (Hline & Hx & Hy).
        bool_to_prop.
        destruct Hskip as [[[Ha Hb]|?]|?]; [|lia|lia].
        destruct (decide (py = by')) as [->|Hne].
        -- destruct (decide (ay = by')) as [->|Hne'].
           ++ exfalso. apply Hcheck. split; [done|]. right. split; [done|]. lia.
           ++ exfalso. apply Hcheck. split; [done|]. left. nia.
        -- assert (py = ay) as -> by lia. f_equal. nia.
  - destruct ((py - ay) * (bx - ax) - (px - ax) * (by' - ay) =? 0) eqn:Hdist.
    + apply on_segment_true. simpl. bool_to_prop.
      assert (Hs : (ay ≤ py < by') ∨ (by' ≤ py < ay)) by lia.
      split; [lia|]. split; [|lia].
      destruct Hs; nia.
    + split.
      * bool_to_prop. apply eq_iff_eq_true. rewrite ray_crosses_true. simpl.
        assert (Hs : (ay ≤ py < by') ∨ (by' ≤ py < ay)) by lia.
        destruct (by' <? ay) eqn:Hdir; bool_to_prop; split; intros; try lia.
        all: try (destruct Hs as [?|?]; [lia|]; right; split; [lia|nia]).
        all: try (destruct Hs as [?|?]; [|lia]; left; split; [lia|nia]).
        all: try nia.
      * apply not_true_iff_false. rewrite on_segment_true. simpl.
        bool_to_prop. intros (Hline & _). lia.
Qed.

Lemma edge_step_self (p u : point) : edge_step Z.sub p u p = OnContour.
Proof.
  destruct p as [px py], u as [ux uy]. unfold edge_step. cbn [fst snd].
  rewrite !Z.eqb_refl. simpl.
  replace ((py - uy) * (px - ux) - (px - ux) * (py - uy)) with 0 by ring.
  simpl. by destruct (_ || _).
Qed.

Lemma edge_loop_spec p cnt v counter :
  edge_loop Z.sub p v cnt counter
  = if existsb (reports p) (edges_from v cnt) then 0
    else if Nat.even (counter + length (List.filter (ray_crosses p)
                                                    (edges_from v cnt)))
         then -1 else 1.
Proof.
  revert v counter. induction cnt as [|c cnt IH]; intros v counter.
  - simpl. by rewrite Nat.add_0_r.
  - cbn [edge_loop edges_from existsb List.filter].
    unfold reports at 1. cbn [fst snd].
    pose proof (edge_step_sound p v c) as Hstep.
    destruct (edge_step Z.sub p v c) as [| |b]; cbn [orb]; [done| |].
    + destruct Hstep as [-> _]. apply IH.
    + destruct Hstep as [<- _]. rewrite IH.
      destruct b; cbn [length]; [|done]. by rewrite Nat.add_succ_r.
Qed.

Lemma edges_from_snd v cnt : (edges_from v cnt).*2 = cnt.
Proof.
  revert v. induction cnt as [|c cnt IH]; intros v; simpl; [done|].
  by rewrite IH.
Qed.

Lemma edges_from_fst v cnt e :
  e ∈ edges_from v cnt → e.1 = v ∨ e.1 ∈ cnt.
Proof.
  revert v. induction cnt as [|c cnt IH]; intros v; simpl.
  - by intros ?%elem_of_nil.
  - intros [->|Hin]%elem_of_cons; [by left|].
    right. apply elem_of_cons.
    apply IH in Hin as [Hc|Hc]; [by left|by right].
Qed.

Lemma last_elem_of_nonempty (c : point) rest :
  rest ≠ [] → List.last rest c ∈ rest.
Proof.
  induction rest as [|d rest IH]; [done|]. intros _.
  destruct rest as [|d' rest']; [by left|].
  right. by apply IH.
Qed.

Lemma last_elem_of (c : point) rest : List.last rest c ∈ c :: rest.
Proof.
  destruct rest as [|d rest]; [by left|].
  right. by apply last_elem_of_nonempty.
Qed.

(** With no edge reporting the point, the point is on no edge. *)
Lemma no_report_off_boundary p cnt :
  existsb (reports p) (polygon_edges cnt) = false →
  existsb (on_segment p) (polygon_edges cnt) = false.
Proof.
  intros Hrep. apply not_true_iff_false. intros Hon.
  apply not_true_iff_false in Hrep. apply Hrep.
  apply existsb_exists in Hon as ([a b] & Hin & Hseg).
  apply existsb_exists.
  pose proof (edge_step_sound p a b) as Hstep.
  destruct (edge_step Z.sub p a b) as [| |counted] eqn:Hedge.
  - exists (a, b). split; [done|]. unfold reports. simpl. by rewrite Hedge.
  - destruct Hstep as [_ Hv0]. specialize (Hv0 Hseg). subst a.
    destruct cnt as [|c rest]; [done|].
    cbn [polygon_edges] in Hin |- *.
    assert (p ∈ c :: rest) as Hp.
    { apply list_elem_of_In in Hin. cbn [edges_from] in Hin.
      apply elem_of_cons in Hin as [[= Hp _]|Hin].
      - rewrite Hp. apply last_elem_of.
      - apply edges_from_fst in Hin as [Hp|Hp]; simpl in Hp.
        + subst p. by left.
        + by right. }
    rewrite <- (edges_from_snd (List.last rest c) (c :: rest)) in Hp.
    apply list_elem_of_fmap in Hp as ([u q] & -> & Hin').
    exists (u, q). split; [by apply list_elem_of_In|].
    unfold reports. simpl. by rewrite edge_step_self.
  - destruct Hstep as [_ Hoff]. congruence.
Qed.

Lemma report_on_boundary p cnt :
  existsb (reports p) (polygon_edges cnt) = true →
  existsb (on_segment p) (polygon_edges cnt) = true.
Proof.
  intros ([a b] & Hin & Hrep)%existsb_exists. apply existsb_exists.
  exists (a, b). split; [done|].
  unfold reports in Hrep. simpl in Hrep.
  pose proof (edge_step_sound p a b) as Hstep.
  by destruct (edge_step Z.sub p a b).
Qed.

(** In exact arithmetic the loop is non-negative exactly on the members
    of the crossing-number test with the boundary included. *)
Lemma edge_loop_member p c rest :
  (0 <=? edge_loop Z.sub p (List.last rest c) (c :: rest) 0)
  = polygon_member (c :: rest) p.
Proof.
  unfold polygon_member, crossing_number.
  rewrite (edge_loop_spec p (c :: rest)).
  change (edges_from (List.last rest c) (c :: rest))
    with (polygon_edges (c :: rest)).
  destruct (existsb (reports p) (polygon_edges (c :: rest))) eqn:Hrep.
  - by rewrite (report_on_boundary _ _ Hrep).
  - rewrite (no_report_off_boundary _ _ Hrep). cbn [orb Nat.add].
    rewrite <- Nat.negb_even. by destruct (Nat.even _).
Qed.

(** *** The numbers of C on coordinates of moderate size *)

Lemma wrap32_c_int n : - 2 ^ 31 ≤ n < 2 ^ 31 → wrap32 n = n.
Proof.
  intros Hn. unfold wrap32. rewrite Z.mod_small; lia.
Qed.

Lemma int_sub_moderate a b : moderate a → moderate b → int_sub a b = a - b.
Proof.
  unfold moderate, int_sub. intros Ha Hb. apply wrap32_c_int. lia.
Qed.

Lemma c_int_moderate x : moderate x → c_int x = true.
Proof.
  unfold moderate, c_int. intros Hx.
  apply andb_true_iff. rewrite Z.leb_le, Z.ltb_lt. lia.
Qed.

Lemma round_to_below prec n :
  0 < prec → Z.abs n < 2 ^ prec → round_to prec n = n.
Proof.
  intros Hprec Hn. unfold round_to.
  destruct (decide (Z.abs n = 0)) as [H0|H0].
  - rewrite H0. simpl. by rewrite (proj2 (Z.leb_le _ _)) by lia.
  - assert (Z.log2 (Z.abs n) < prec) by (apply Z.log2_lt_pow2; lia).
    by rewrite (proj2 (Z.leb_le _ _)) by lia.
Qed.

Lemma float64_moderate x : moderate x → float64 x = x.
Proof.
  unfold moderate, float64. intros Hx. apply round_to_below; [done|].
  assert (2 ^ 30 < 2 ^ 53) by (by vm_compute). lia.
Qed.

(** Every integer up to [2^24] in magnitude is held exactly. *)
Lemma point2f_exact (p : point) :
  Z.abs p.1 ≤ 2 ^ 24 → Z.abs p.2 ≤ 2 ^ 24 → point2f p = p.
Proof.
  assert (Hx : ∀ x, Z.abs x ≤ 2 ^ 24 → float32 (float64 x) = x).
  { intros x Hx. unfold float64.
    rewrite (round_to_below 53 x); [|done|].
    2:{ assert (2 ^ 24 < 2 ^ 53) by (by vm_compute). lia. }
    destruct (decide (Z.abs x = 2 ^ 24)) as [Hmax|Hlt].
    - destruct (Z.abs_eq_or_opp x) as [H|H]; rewrite H in Hmax.
      + by rewrite Hmax.
      + assert (x = - 2 ^ 24) as -> by lia. done.
    - apply round_to_below; [done|lia]. }
  destruct p as [x y]. unfold point2f. cbn [fst snd].
  intros H1 H2. by rewrite !Hx.
Qed.

Lemma edge_step_int_exact (p v0 v : point) :
  moderate p.1 → moderate p.2 → moderate v0.1 → moderate v0.2 →
  moderate v.1 → moderate v.2 →
  edge_step int_sub p v0 v = edge_step Z.sub p v0 v.
Proof.
  intros. unfold edge_step. by rewrite !int_sub_moderate.
Qed.

Lemma edge_loop_int_exact (p v : point) cnt counter :
  moderate p.1 → moderate p.2 → moderate v.1 → moderate v.2 →
  Forall (fun c => moderate c.1 ∧ moderate c.2) cnt →
  edge_loop int_sub p v cnt counter = edge_loop Z.sub p v cnt counter.
Proof.
  intros Hp1 Hp2 Hv1 Hv2 Hcnt. revert v counter Hv1 Hv2.
  induction Hcnt as [|c cnt [Hc1 Hc2] _ IH]; intros v counter Hv1 Hv2; [done|].
  cbn [edge_loop]. rewrite edge_step_int_exact by done.
  destruct (edge_step Z.sub p v c); [done| |]; by apply IH.
Qed.

Lemma pairs_moderate dat :
  Forall moderate dat → Forall (fun c => moderate c.1 ∧ moderate c.2) (pairs dat).
Proof.
  revert dat. fix IH 1. intros [|x [|y dat]] Hdat; [constructor..|].
  cbn [pairs]. inversion_clear Hdat as [|? ? Hx Hrest].
  inversion_clear Hrest as [|? ? Hy Hdat]. constructor; [done|].
  by apply IH.
Qed.

Lemma contour_points n dat :
  dat ≠ [] → Cv.contour (NdArray [n; 2%nat] dat) = Ok (pairs dat).
Proof.
  intros Hdat. unfold contour. simpl.
  destruct dat; [done|]. by destruct n as [|[|?]].
Qed.

(** On a point a [float] holds exactly and coordinates of moderate size,
    [pointPolygonTest] runs its integer loop without a wrap: it is
    non-negative exactly on the members of the crossing-number test with
    the boundary included. *)
Lemma pointPolygonTest_member n dat p :
  dat ≠ [] → Forall moderate dat → moderate p.1 → moderate p.2 →
  point2f p = p →
  ∃ val, Cv.pointPolygonTest (NdArray [n; 2%nat] dat) (point2f p) = Ok val
         ∧ (0 <=? val) = polygon_member (pairs dat) p.
Proof.
  intros Hdat Hmod Hp1 Hp2 Hexact. rewrite Hexact.
  unfold pointPolygonTest. rewrite contour_points by done.
  cbn [mbind result_bind Py.bind].
  pose proof (pairs_moderate dat Hmod) as Hcnt.
  destruct (pairs dat) as [|c rest] eqn:Hpairs.
  { exists (-1). by split. }
  assert (Hf : float32 p.1 = p.1 ∧ float32 p.2 = p.2).
  { destruct p as [x y]. unfold point2f in Hexact. cbn [fst snd] in *.
    rewrite !float64_moderate in Hexact by done.
    by injection Hexact as -> ->. }
  destruct Hf as [Hf1 Hf2].
  unfold cvRound. rewrite !c_int_moderate by done. cbn [fst snd].
  rewrite Hf1, Hf2, !Z.eqb_refl. cbn [andb].
  eexists. split; [done|].
  rewrite edge_loop_int_exact; [|done|done| | |done].
  - destruct p. apply edge_loop_member.
  - pose proof (last_elem_of c rest) as Hlast.
    rewrite Forall_forall in Hcnt. by apply Hcnt.
  - pose proof (last_elem_of c rest) as Hlast.
    rewrite Forall_forall in Hcnt. by apply Hcnt.
Qed.

(** A polygon zone counts the members of the crossing-number test. *)
Lemma counted_polygon n dat name sel p :
  Forall moderate dat → moderate p.1 → moderate p.2 → point2f p = p →
  counted (Zone (Poly (NdArray [n; 2%nat] dat)) name sel) p
  = polygon_member (pairs dat) p.
Proof.
  intros Hmod Hp1 Hp2 Hexact.
  unfold counted, in_zone. cbn [z_shape].
  destruct (decide (dat = [])) as [->|Hdat]; [done|].
  by destruct (pointPolygonTest_member n dat p Hdat Hmod Hp1 Hp2 Hexact)
    as (val & -> & <-).
Qed.

(** ** Global counts, order of the boxes, zones against the whole frame *)

Lemma filter_length_perm {A} (P : A → bool) (l l' : list A) :
  Permutation l l' → length (List.filter P l) = length (List.filter P l').
Proof.
  induction 1 as [|x l l' _ IH|x y l|l l' l'' _ IH _ IH']; simpl.
  - done.
  - destruct (P x); simpl; by rewrite IH.
  - by destruct (P x), (P y).
  - by rewrite IH.
Qed.

Lemma count_in_le_count_cls z c boxes :
  (count_in z c boxes ≤ count_cls c boxes)%nat.
Proof.
  unfold count_in, count_cls.
  induction boxes as [|box boxes IH]; simpl; [done|].
  destruct (has_class c box); simpl; [|done].
  destruct (counted z (center box)); simpl; lia.
Qed.

Lemma tally_le n n' : (n ≤ n')%nat → (default 0 (tally n) ≤ default 0 (tally n'))%nat.
Proof. by rewrite !default_tally. Qed.

Lemma count_boxes_zone_counts_perm f zones boxes boxes' :
  Permutation boxes boxes' →
  zone_counts (count_boxes f zones boxes)
  = zone_counts (count_boxes f zones boxes').
Proof.
  intros Hperm. apply list_eq. intros i.
  destruct (zones !! i) as [z|] eqn:Hz.
  - destruct (count_boxes_zone_counts f zones boxes i z Hz) as (m & -> & Hm).
    destruct (count_boxes_zone_counts f zones boxes' i z Hz) as (m' & -> & Hm').
    f_equal. apply map_eq. intros c. rewrite Hm, Hm'. f_equal.
    by apply filter_length_perm.
  - apply lookup_ge_None in Hz.
    rewrite !lookup_ge_None_2; [done| |];
      by rewrite count_boxes_zone_counts_length.
Qed.

Lemma count_boxes_class_counts_perm f zones boxes boxes' :
  Permutation boxes boxes' →
  class_counts (count_boxes f zones boxes)
  = class_counts (count_boxes f zones boxes').
Proof.
  intros Hperm. apply map_eq. intros c.
  rewrite !count_boxes_class_counts. f_equal. by apply filter_length_perm.
Qed.

(** C1. For every list of boxes and every list of zones, the global
    counter of each class holds, after the counting loop, the number of
    boxes of that class: a box is counted once under its class name.  The
    global counters are the same whatever the zones (and whatever was on
    the frame), the total [sum(class_counts.values())] is the number of
    boxes, and these are the global counts and the total that
    [process_frame_counts] returns when it returns. *)
Theorem global_counts_once_per_detection f zones boxes :
  let st := count_boxes f zones boxes in
  (∀ c, class_counts st !! c = tally (count_cls c boxes))
  ∧ (∀ f' zones', class_counts st = class_counts (count_boxes f' zones' boxes))
  ∧ sum_values (class_counts st) = length boxes
  ∧ match process_frame_counts f boxes zones with
    | Ok r => r_class_counts r = class_counts st
              ∧ r_total r = sum_values (r_class_counts r)
              ∧ r_total r = length boxes
    | Raise e => e = TypeError ∧ ¬ Forall (fun m => m = ∅) (zone_counts st)
    end.
Proof.
  intros st. split; [|split; [|split]].
  - intros c. apply count_boxes_class_counts.
  - intros f' zones'. apply map_eq. intros c.
    unfold st. by rewrite !count_boxes_class_counts.
  - apply count_boxes_total.
  - rewrite process_frame_counts_spec. fold st.
    case_bool_decide; simpl; [|done].
    split; [done|]. split; [|done]. unfold st. by rewrite count_boxes_total.
Qed.

(** C9. The counts of a frame do not depend on the order of the boxes:
    for a permutation of the boxes the counting loop ends with the same
    global counters, the same counters in every zone and the same total,
    and [process_frame_counts] returns the same counts, or raises the
    same exception. *)
Theorem counts_permutation_invariant f zones boxes boxes' :
  Permutation boxes boxes' →
  class_counts (count_boxes f zones boxes)
  = class_counts (count_boxes f zones boxes')
  ∧ zone_counts (count_boxes f zones boxes)
    = zone_counts (count_boxes f zones boxes')
  ∧ sum_values (class_counts (count_boxes f zones boxes))
    = sum_values (class_counts (count_boxes f zones boxes'))
  ∧ match process_frame_counts f boxes zones,
          process_frame_counts f boxes' zones with
    | Ok r, Ok r' => r_class_counts r = r_class_counts r'
                     ∧ r_zone_counts r = r_zone_counts r'
                     ∧ r_total r = r_total r'
    | Raise e, Raise e' => e = e'
    | _, _ => False
    end.
Proof.
  intros Hperm.
  pose proof (count_boxes_class_counts_perm f zones _ _ Hperm) as Hcls.
  pose proof (count_boxes_zone_counts_perm f zones _ _ Hperm) as Hzone.
  split; [done|]. split; [done|]. split; [by rewrite Hcls|].
  rewrite !process_frame_counts_spec. rewrite <- Hzone.
  case_bool_decide; simpl; [|done].
  split; [done|]. split; [done|]. by apply Permutation_length.
Qed.

(** C9 at two boxes taken in either order, with one zone. *)
Lemma counts_permutation_invariant_witness :
  let a := Detection "car" (4, 4, 6, 6) in
  let b := Detection "bus" (20, 20, 30, 30) in
  let zones := [Zone (Rect (0, 0, 10, 10)) (JStr "A") true] in
  class_counts (count_boxes [] zones [a; b])
  = class_counts (count_boxes [] zones [b; a])
  ∧ zone_counts (count_boxes [] zones [a; b])
    = zone_counts (count_boxes [] zones [b; a])
  ∧ sum_values (class_counts (count_boxes [] zones [a; b]))
    = sum_values (class_counts (count_boxes [] zones [b; a]))
  ∧ match process_frame_counts [] [a; b] zones,
          process_frame_counts [] [b; a] zones with
    | Ok r, Ok r' => r_class_counts r = r_class_counts r'
                     ∧ r_zone_counts r = r_zone_counts r'
                     ∧ r_total r = r_total r'
    | Raise e, Raise e' => e = e'
    | _, _ => False
    end.
Proof.
  intros a b zones.
  apply (counts_permutation_invariant [] zones [a; b] [b; a]).
  apply perm_swap.
Defined.

(** C10. In the counters of a frame, the count of a class in a zone is at
    most the global count of that class: after the counting loop, and in
    every result [process_frame_counts] returns. *)
Theorem zone_count_le_global_count f zones boxes :
  let st := count_boxes f zones boxes in
  Forall (fun m : gmap string nat =>
            ∀ c, (default 0 (m !! c) ≤ default 0 (class_counts st !! c))%nat)
         (zone_counts st)
  ∧ match process_frame_counts f boxes zones with
    | Ok r =>
        Forall (fun m : gmap string nat =>
                  ∀ c, (default 0 (m !! c)
                        ≤ default 0 (r_class_counts r !! c))%nat)
               (r_zone_counts r)
    | Raise _ => True
    end.
Proof.
  intros st.
  assert (Hall : Forall (fun m : gmap string nat =>
            ∀ c, (default 0 (m !! c) ≤ default 0 (class_counts st !! c))%nat)
         (zone_counts st)).
  { apply Forall_lookup. intros i m Hm c.
    destruct (lookup_lt_is_Some_2 zones i) as [z Hz].
    { unfold st in Hm. apply lookup_lt_Some in Hm.
      by rewrite count_boxes_zone_counts_length in Hm. }
    destruct (count_boxes_zone_counts f zones boxes i z Hz) as (m' & Hm' & Hc).
    fold st in Hm'. assert (m' = m) as -> by congruence.
    unfold st. rewrite Hc, count_boxes_class_counts.
    apply tally_le, count_in_le_count_cls. }
  split; [done|].
  rewrite process_frame_counts_spec. fold st. by case_bool_decide.
Qed.

(** ** Membership of a point in a zone *)

Lemma assign_zones_single z cls p (m : gmap string nat) :
  assign_zones [z] cls p [m] = [if counted z p then incr cls m else m].
Proof.
  unfold assign_zones, counted. simpl.
  by destruct (in_zone z p) as [[]|].
Qed.

(** C2. A rectangle counts a point exactly when the point is strictly
    between its sides, [min(x1,x2) < cx < max(x1,x2)] and
    [min(y1,y2) < cy < max(y1,y2)]; the test never raises, and the loop
    over the zones raises the zone's counter of the class exactly then.
    A box centred at (10,5) is on the side of the rectangle (0,0,10,10)
    and is not counted in it: the frame's result has an empty dictionary
    for the zone. *)
Theorem rect_membership_strict_interior x1 y1 x2 y2 name sel cx cy cls
    (m : gmap string nat) :
  let z := Zone (Rect (x1, y1, x2, y2)) name sel in
  let inside := Z.min x1 x2 < cx < Z.max x1 x2
                ∧ Z.min y1 y2 < cy < Z.max y1 y2 in
  (in_zone z (cx, cy) = Ok true ↔ inside)
  ∧ (in_zone z (cx, cy) = Ok false ↔ ¬ inside)
  ∧ assign_zones [z] cls (cx, cy) [m]
    = [if bool_decide inside then incr cls m else m]
  ∧ (let a := Zone (Rect (0, 0, 10, 10)) (JStr "A") true in
     let box := Detection "car" (9, 4, 11, 6) in
     center box = (10, 5)
     ∧ in_zone a (10, 5) = Ok false
     ∧ process_frame_counts [] [box] [a]
       = Ok {| r_frame := [Rectangle (0, 0) (10, 10); Rectangle (9, 4) (11, 6);
                           Circle (10, 5); PutText (JStr "car", 1%nat) (9, -6)];
               r_zone_counts := [∅];
               r_class_counts := {["car"%string := 1%nat]};
               r_total := 1 |}).
Proof.
  intros z inside.
  assert (Hb : in_zone z (cx, cy) = Ok (bool_decide inside)).
  { unfold in_zone, inside. simpl. f_equal.
    apply eq_iff_eq_true. rewrite bool_decide_eq_true.
    rewrite !andb_true_iff, !Z.ltb_lt. tauto. }
  split; [|split; [|split]].
  - rewrite Hb. split.
    + intros [= H]. by apply bool_decide_eq_true in H.
    + intros H. by rewrite bool_decide_eq_true_2.
  - rewrite Hb. split.
    + intros [= H]. by apply bool_decide_eq_false in H.
    + intros H. by rewrite bool_decide_eq_false_2.
  - rewrite assign_zones_single. unfold counted. by rewrite Hb.
  - split; [done|]. split; [done|]. by vm_compute.
Qed.

(** C3, amended.  A polygon of N vertices with coordinates of moderate
    size, from [-2^30] up to [2^30], counts a point of that size that a
    [float] holds exactly (every integer up to [2^24] in magnitude is
    one) exactly when the crossing-number test, with the points of the
    boundary taken as members, accepts it: the point lies on an edge, or
    a horizontal ray from it crosses the edges an odd number of times.
    The loop over the zones raises the zone's counter of the class
    exactly then.  The point (5,0) is on the edge from (0,0) to (10,0) of
    the triangle (0,0)-(10,0)-(0,10): it is a member, and a box centred
    there raises the counter of its class in the zone to 1. *)
Theorem polygon_membership_crossing_number n dat name sel p cls
    (m : gmap string nat) :
  Forall moderate dat → moderate p.1 → moderate p.2 → point2f p = p →
  let z := Zone (Poly (NdArray [n; 2%nat] dat)) name sel in
  counted z p = polygon_member (pairs dat) p
  ∧ (∀ e, e ∈ polygon_edges (pairs dat) → on_segment p e = true →
          in_zone z p = Ok true)
  ∧ assign_zones [z] cls p [m]
    = [if polygon_member (pairs dat) p then incr cls m else m]
  ∧ (let triangle := Zone (Poly (NdArray [3%nat; 2%nat] [0; 0; 10; 0; 0; 10]))
                          (JStr "T") true in
     let box := Detection "car" (4, -1, 6, 1) in
     center box = (5, 0)
     ∧ on_segment (5, 0) ((0, 0), (10, 0)) = true
     ∧ in_zone triangle (5, 0) = Ok true
     ∧ zone_counts (count_boxes [] [triangle] [box])
       = [{["car"%string := 1%nat]}]).
Proof.
  intros Hmod Hp1 Hp2 Hexact z.
  pose proof (counted_polygon n dat name sel p Hmod Hp1 Hp2 Hexact) as Hc.
  fold z in Hc.
  split; [done|]. split; [|split].
  - intros e He Hon.
    assert (Hmem : polygon_member (pairs dat) p = true).
    { unfold polygon_member. apply orb_true_iff. left. apply existsb_exists.
      exists e. split; [by apply list_elem_of_In|done]. }
    assert (Hdat : dat ≠ []) by (by intros ->; apply elem_of_nil in He).
    unfold in_zone, z. cbn [z_shape].
    destruct (pointPolygonTest_member n dat p Hdat Hmod Hp1 Hp2 Hexact)
      as (val & -> & Hval).
    simpl. by rewrite Hval, Hmem.
  - rewrite assign_zones_single. by rewrite Hc.
  - repeat split; by vm_compute.
Qed.

(** C3 at the triangle (0,0)-(10,0)-(0,10) and the point (5,0) on its
    edge. *)
Lemma polygon_membership_crossing_number_witness :
  let dat := [0; 0; 10; 0; 0; 10] in
  let z := Zone (Poly (NdArray [3%nat; 2%nat] dat)) (JStr "T") true in
  Forall moderate dat
  ∧ point2f (5, 0) = (5, 0)
  ∧ counted z (5, 0) = polygon_member (pairs dat) (5, 0)
  ∧ assign_zones [z] "car" (5, 0) [∅]
    = [if polygon_member (pairs dat) (5, 0) then incr "car" ∅ else ∅].
Proof.
  intros dat z.
  assert (Hdat : Forall moderate dat).
  { unfold dat, moderate. repeat constructor; vm_compute; congruence. }
  assert (Hp : moderate 5 ∧ moderate 0).
  { unfold moderate. split; split; vm_compute; congruence. }
  destruct Hp as [H5 H0].
  split; [exact Hdat|]. split; [reflexivity|].
  destruct (polygon_membership_crossing_number 3%nat dat (JStr "T") true
              (5, 0) "car" ∅ Hdat H5 H0 eq_refl) as (Hc & _ & Ha & _).
  split; [exact Hc|exact Ha].
Defined.

(** C3, as stated for every polygon, fails.  The triangle
    (-2000000000,-2000000000)-(2000000000,-2000000000)-(0,2000000000) is
    an [int32] array, and the point (50,50) is inside it: a ray from the
    point crosses one edge.  On the edge from (2000000000,-2000000000) to
    (0,2000000000) the loop takes the difference of the heights,
    4000000000, in 32 bits, where it is -294967296, and does not count
    the crossing: the test answers [-1] and a box centred at (50,50) is
    not counted in the zone. *)
Lemma wide_polygon_misses_inner_point :
  let dat := [-2000000000; -2000000000; 2000000000; -2000000000;
              0; 2000000000] in
  let wide := Zone (Poly (NdArray [3%nat; 2%nat] dat)) (JStr "W") true in
  let box := Detection "car" (49, 49, 51, 51) in
  forallb c_int dat = true
  ∧ center box = (50, 50)
  ∧ crossing_number (50, 50) (pairs dat) = 1%nat
  ∧ polygon_member (pairs dat) (50, 50) = true
  ∧ int_sub 2000000000 (-2000000000) = -294967296
  ∧ Cv.pointPolygonTest (NdArray [3%nat; 2%nat] dat) (point2f (50, 50))
    = Ok (-1)
  ∧ in_zone wide (50, 50) = Ok false
  ∧ counted wide (50, 50) = false
  ∧ zone_counts (count_boxes [] [wide] [box]) = [∅].
Proof. repeat split; by vm_compute. Qed.

(** A point beyond [2^24] is rounded before the test: (16777217,0) is
    outside the triangle (0,0)-(16777216,0)-(0,10), and is tested as its
    vertex (16777216,0). *)
Example point_beyond_float_precision_is_rounded :
  let dat := [0; 0; 16777216; 0; 0; 10] in
  point2f (16777217, 0) = (16777216, 0)
  ∧ polygon_member (pairs dat) (16777217, 0) = false
  ∧ in_zone (Zone (Poly (NdArray [3%nat; 2%nat] dat)) (JStr "T") true)
            (16777217, 0) = Ok true.
Proof. repeat split; by vm_compute. Qed.

(** Zones may overlap: a box centred at (7,7) is counted in the
    rectangle (0,0,10,10) and in the rectangle (5,5,15,15). *)
Example overlapping_zones_both_count :
  let a := Zone (Rect (0, 0, 10, 10)) (JStr "A") true in
  let b := Zone (Rect (5, 5, 15, 15)) (JStr "B") true in
  let box := Detection "car" (6, 6, 8, 8) in
  center box = (7, 7)
  ∧ zone_counts (count_boxes [] [a; b] [box])
    = [{["car"%string := 1%nat]}; {["car"%string := 1%nat]}].
Proof. by vm_compute. Qed.

(** ** The overlay of the zone totals *)

(** C4. A zone whose polygon OpenCV rejects is passed over while the
    zones are drawn and while the boxes are counted, and with no other
    zone the frame is processed to its end.  The zone totals of lines
    71-77 are written outside any [try]: with a box counted in a zone,
    [x1 + 4] adds an [int] to the key ['type'], and the [TypeError] leaves
    [process_frame_counts] and the run.  For an image, [cv2.boundingRect]
    of a rejected polygon raises in [main] as well. *)
Theorem zone_totals_overlay_raises :
  let a := Zone (Rect (0, 0, 10, 10)) (JStr "A") true in
  let bad := Zone (Poly (NdArray [3%nat] [1; 2; 3])) (JStr "B") true in
  let box := Detection "car" (4, 4, 6, 6) in
  (∀ f boxes, draw_zones_on_frame f [bad] = f
              ∧ process_frame_counts f boxes [bad]
                = Ok {| r_frame := c_frame (count_boxes f [bad] boxes);
                        r_zone_counts := [∅];
                        r_class_counts :=
                          class_counts (count_boxes f [bad] boxes);
                        r_total := length boxes |})
  ∧ zone_counts (count_boxes [] [a] [box]) = [{["car"%string := 1%nat]}]
  ∧ process_frame_counts [] [box] [a] = Raise TypeError
  ∧ process_frame_counts [] [box] [bad; a] = Raise TypeError
  ∧ run_image [a] (Some [box]) = ([], Raise TypeError)
  ∧ run_video [a] (VideoStream true [Some [box]])
    = ([EvCapture; EvWriter], Raise TypeError)
  ∧ run_image [bad] (Some [box]) = ([], Raise CvError).
Proof.
  intros a bad box. split; [|by vm_compute].
  intros f boxes. split; [done|].
  rewrite process_frame_counts_spec.
  assert (Hzc : zone_counts (count_boxes f [bad] boxes) = [∅]).
  { unfold count_boxes.
    induction boxes as [|b boxes IH] using rev_ind; [done|].
    rewrite foldl_app. cbn [foldl].
    by rewrite count_box_zone_counts, IH, assign_zones_single. }
  rewrite Hzc. by rewrite bool_decide_eq_true_2 by (by repeat constructor).
Qed.

(** ** Zone normalisation *)

Section NormalisationFacts.

Variable int_of_str : string → result Z.
Variable np_array : list json → result ndarray.

(** What is neither a dictionary nor a list, and a list of fewer than
    three items, is dropped. *)
Lemma normalize_zone_drops z :
  match z with
  | JNull | JBool _ | JInt _ | JStr _ | JList [] | JList [_] | JList [_; _] =>
      normalize_zone int_of_str np_array z = Ok None
  | _ => True
  end.
Proof. by destruct z as [| | | |[|? [|? [|? ?]]]|]. Qed.

(** A dictionary with [x], [y], [w], [h] is the rectangle from [(x, y)]
    to [(x + w, y + h)]; a field left out is 0. *)
Lemma normalize_zone_xywh :
  normalize_zone int_of_str np_array
    (JDict [("x", JInt 2); ("y", JInt 3); ("w", JInt 4); ("h", JInt 5)]%string)
  = Ok (Some (Zone (Rect (2, 3, 6, 8)) (JStr "") true))
  ∧ normalize_zone int_of_str np_array (JDict [("name", JStr "A")]%string)
    = Ok (Some (Zone (Rect (0, 0, 0, 0)) (JStr "A") true)).
Proof. done. Qed.

(** A raw sequence of exactly three points goes to [np.array]: it is a
    polygon when the array is 3 x k with k >= 2. *)
Lemma normalize_zone_three_points p1 p2 p3 dat :
  np_array [p1; p2; p3] = Ok (NdArray [3%nat; 2%nat] dat) →
  normalize_zone int_of_str np_array (JList [p1; p2; p3])
  = Ok (Some (Zone (Poly (NdArray [3%nat; 2%nat] dat)) (JStr "") true)).
Proof. intros Hnp. unfold normalize_zone, raw_polygon. by rewrite Hnp. Qed.

(** A raw sequence of four items or more takes the rectangle branch,
    whatever the items are: [int] of a point raises. *)
Lemma normalize_zone_four_points x0 y0 z1 z2 z3 rest :
  normalize_zone int_of_str np_array
    (JList (JList [x0; y0] :: z1 :: z2 :: z3 :: rest))
  = Raise TypeError.
Proof. done. Qed.

End NormalisationFacts.

(** C5. The zone file [[0, 0, 10, 10], [0, 0, null, 10]] holds one
    rectangle and one record that is no rectangle and no polygon.  The
    second record is not dropped: [int(None)] raises [TypeError] in the
    branch of line 157, outside any [try], and [main] ends with the
    exception, whatever the input media; no zone list and no summary come
    out. *)
Theorem malformed_record_aborts_run int_of_str np_array input :
  let valid := JList [JInt 0; JInt 0; JInt 10; JInt 10] in
  let malformed := JList [JInt 0; JInt 0; JNull; JInt 10] in
  normalize_zone int_of_str np_array valid
  = Ok (Some (Zone (Rect (0, 0, 10, 10)) (JStr "") true))
  ∧ normalize_zone int_of_str np_array malformed = Raise TypeError
  ∧ normalize_zones int_of_str np_array [valid; malformed] = Raise TypeError
  ∧ main int_of_str np_array [valid; malformed] input = ([], Raise TypeError).
Proof. done. Qed.

(** C6. The raw sequence [[0,0],[10,0],[10,10],[0,10]] of four points is
    not made a polygon: having four items it takes the branch of line
    155, [int([0, 0])] raises [TypeError] outside any [try], and [main]
    ends with the exception, whatever the input media.  So does every raw
    sequence of four points or more. *)
Theorem raw_polygon_of_four_points_aborts_run int_of_str np_array input :
  let pt x y := JList [JInt x; JInt y] in
  let square := JList [pt 0 0; pt 10 0; pt 10 10; pt 0 10] in
  normalize_zone int_of_str np_array square = Raise TypeError
  ∧ normalize_zones int_of_str np_array [square] = Raise TypeError
  ∧ main int_of_str np_array [square] input = ([], Raise TypeError)
  ∧ ∀ x0 y0 z1 z2 z3 rest,
      normalize_zone int_of_str np_array
        (JList (JList [x0; y0] :: z1 :: z2 :: z3 :: rest))
      = Raise TypeError.
Proof. done. Qed.

(** ** The running sums of a video *)

Lemma add_counts_lookup (acc d : gmap string nat) k :
  add_counts acc d !! k
  = match d !! k with
    | Some cnt => Some (default 0 (acc !! k) + cnt)%nat
    | None => acc !! k
    end.
Proof.
  unfold add_counts. revert k.
  apply (map_fold_weak_ind (fun r m => ∀ k, r !! k = match m !! k with
    | Some cnt => Some (default 0 (acc !! k) + cnt)%nat
    | None => acc !! k
    end)); [done|].
  intros i x m r Hi IH k. destruct (decide (i = k)) as [->|Hne].
  - rewrite !lookup_insert_eq. by rewrite IH, Hi.
  - rewrite !lookup_insert_ne by done. apply IH.
Qed.

(** The loop of lines 233-234 and 243-244 is the key-wise sum. *)
Lemma add_counts_keywise_sum acc d : add_counts acc d = keywise_sum acc d.
Proof.
  apply map_eq. intros k. unfold keywise_sum.
  rewrite add_counts_lookup, lookup_union_with.
  destruct (acc !! k), (d !! k); simpl; try done. 
Qed.

Lemma accumulate_zone_counts n s r i :
  cumulative_zone_counts (accumulate n s r) !! i
  = if decide (i < n)%nat
    then (fun acc => keywise_sum acc (zone_counts_at i r))
           <$> cumulative_zone_counts s !! i
    else cumulative_zone_counts s !! i.
Proof.
  unfold accumulate. cbn [cumulative_zone_counts].
  induction n as [|n IH].
  - cbn [seq foldl]. by rewrite decide_False by lia.
  - rewrite seq_S, foldl_app. cbn [foldl Nat.add].
    destruct (decide (i = n)) as [->|Hne].
    + rewrite list_lookup_alter_eq, IH.
      rewrite decide_False by lia. rewrite decide_True by lia.
      destruct (cumulative_zone_counts s !! n); [|done]. simpl.
      by rewrite add_counts_keywise_sum.
    + rewrite list_lookup_alter_ne by done. rewrite IH.
      destruct (decide (i < n)%nat), (decide (i < S n)%nat); try done; lia.
Qed.

Lemma keywise_sum_foldl_shift (a : gmap string nat) ds :
  foldl keywise_sum a ds = keywise_sum a (keywise_sum_list ds).
Proof.
  unfold keywise_sum_list.
  induction ds as [|d ds IH] using rev_ind.
  - simpl. apply map_eq. intros k. unfold keywise_sum.
    rewrite lookup_union_with, lookup_empty. by destruct (a !! k).
  - rewrite !foldl_app. simpl. rewrite IH.
    apply map_eq. intros k. unfold keywise_sum.
    rewrite !lookup_union_with.
    destruct (a !! k), (foldl _ ∅ ds !! k), (d !! k); simpl; try done.
    f_equal. lia.
Qed.

(** Folding the results of the frames one by one gives the sum of the
    totals, and the key-wise sums of the global and of the zone
    counters. *)
Lemma foldl_accumulate n s rs :
  let s' := foldl (accumulate n) s rs in
  cumulative_total s' = (cumulative_total s + sum_list_with r_total rs)%nat
  ∧ (rs ≠ [] →
     overall_class_counts s'
     = Some (keywise_sum (default ∅ (overall_class_counts s))
                         (keywise_sum_list (r_class_counts <$> rs))))
  ∧ ∀ i, cumulative_zone_counts s' !! i
         = if decide (i < n)%nat
           then (fun acc => keywise_sum acc
                              (keywise_sum_list ((zone_counts_at i) <$> rs)))
                  <$> cumulative_zone_counts s !! i
           else cumulative_zone_counts s !! i.
Proof.
  induction rs as [|r rs IH] using rev_ind; cbv zeta in *.
  - simpl. split; [lia|]. split; [done|]. intros i.
    case_decide; [|done].
    destruct (cumulative_zone_counts s !! i) as [c|]; [|done].
    simpl. f_equal. apply map_eq. intros k. unfold keywise_sum, keywise_sum_list.
    simpl. rewrite lookup_union_with, lookup_empty.
    by destruct (_ !! k).
  - destruct IH as (Htot & Hall & Hzone).
    rewrite foldl_app. cbn [foldl]. split; [|split].
    + cbn [accumulate cumulative_total]. rewrite Htot.
      rewrite sum_list_with_app. simpl. lia.
    + intros _. cbn [accumulate overall_class_counts].
      rewrite add_counts_keywise_sum. f_equal.
      rewrite fmap_app. unfold keywise_sum_list at 1.
      rewrite foldl_app. cbn [fmap list_fmap foldl].
      fold (keywise_sum_list (r_class_counts <$> rs)).
      destruct rs as [|r0 rs0] using rev_ind.
      * simpl. apply map_eq. intros k. unfold keywise_sum, keywise_sum_list.
        simpl. rewrite !lookup_union_with, lookup_empty.
        by destruct (default ∅ (overall_class_counts s) !! k),
                    (r_class_counts r !! k).
      * clear IHrs0. rewrite Hall by (by destruct rs0). simpl.
        apply map_eq. intros k. unfold keywise_sum.
        rewrite !lookup_union_with.
        destruct (default ∅ (overall_class_counts s) !! k),
                 (keywise_sum_list (r_class_counts <$> rs0 ++ [r0]) !! k),
                 (r_class_counts r !! k); simpl; try done.
        f_equal. lia.
    + intros i. rewrite accumulate_zone_counts, Hzone.
      case_decide; [|done].
      destruct (cumulative_zone_counts s !! i) as [c|]; [|done]. simpl.
      f_equal. rewrite fmap_app. unfold keywise_sum_list at 2.
      rewrite foldl_app. cbn [fmap list_fmap foldl].
      fold (keywise_sum_list (zone_counts_at i <$> rs)).
      apply map_eq. intros k. unfold keywise_sum.
      rewrite !lookup_union_with.
      destruct (c !! k), (keywise_sum_list (zone_counts_at i <$> rs) !! k),
               (zone_counts_at i r !! k); simpl; try done.
      f_equal. lia.
Qed.

Lemma keywise_sum_empty_l (d : gmap string nat) : keywise_sum ∅ d = d.
Proof.
  apply map_eq. intros k. unfold keywise_sum.
  rewrite lookup_union_with, lookup_empty. by destruct (d !! k).
Qed.

(** ** The frame loop of a video *)

Lemma frame_loop_frames_read zones reads s trace :
  frame_loop zones reads s trace
  = frame_loop zones (Some <$> frames_read reads) s trace.
Proof.
  revert s trace. induction reads as [|[boxes|] reads IH]; intros s trace;
    cbn [frames_read fmap list_fmap frame_loop]; [done| |done].
  destruct (process_frame_counts [] boxes zones); [|done]. apply IH.
Qed.

Lemma frame_loop_returns zones frames s trace :
  Forall (fun boxes => is_ok (process_frame_counts [] boxes zones) = true)
         frames →
  ∃ rs, Forall2 (fun boxes r => process_frame_counts [] boxes zones = Ok r)
                frames rs
        ∧ frame_loop zones (Some <$> frames) s trace
          = (trace ++ (EvWriterFrame ∘ r_frame <$> rs),
             Ok (foldl (accumulate (length zones)) s rs)).
Proof.
  intros Hall. revert s trace.
  induction Hall as [|boxes frames Hbox _ IH]; intros s trace.
  - exists []. split; [constructor|]. simpl. by rewrite app_nil_r.
  - cbn [fmap list_fmap frame_loop].
    destruct (process_frame_counts [] boxes zones) as [r|] eqn:Hr; [|done].
    destruct (IH (accumulate (length zones) s r)
                 (trace ++ [EvWriterFrame (r_frame r)])) as (rs & Hrs & ->).
    exists (r :: rs). split; [by constructor|].
    cbn [fmap list_fmap foldl]. by rewrite <- app_assoc.
Qed.

Lemma frame_loop_raises zones frames s trace :
  ¬ Forall (fun boxes => is_ok (process_frame_counts [] boxes zones) = true)
           frames →
  ∃ fs e, frame_loop zones (Some <$> frames) s trace
          = (trace ++ (EvWriterFrame <$> fs), Raise e).
Proof.
  revert s trace. induction frames as [|boxes frames IH]; intros s trace Hnot.
  - destruct Hnot. constructor.
  - cbn [fmap list_fmap frame_loop].
    destruct (process_frame_counts [] boxes zones) as [r|e] eqn:Hr.
    + destruct (IH (accumulate (length zones) s r)
                   (trace ++ [EvWriterFrame (r_frame r)])) as (fs & e & ->).
      { intros Hall. apply Hnot. constructor; [by rewrite Hr|done]. }
      exists (r_frame r :: fs), e. by rewrite <- app_assoc.
    + exists [], e. by rewrite app_nil_r.
Qed.

(** A video run that reaches the end of its frame loop prints the sum of
    the totals of its frames and the key-wise sums of their global and
    zone counters. *)
Lemma run_video_returns zones stream :
  Forall (fun boxes => is_ok (process_frame_counts [] boxes zones) = true)
         (frames_read stream) →
  ∃ rs, Forall2 (fun boxes r => process_frame_counts [] boxes zones = Ok r)
                (frames_read stream) rs
        ∧ run_video zones (VideoStream true stream)
          = ([EvCapture; EvWriter] ++ (EvWriterFrame ∘ r_frame <$> rs)
             ++ [EvCaptureRelease; EvWriterRelease;
                 EvPrint (Success
                   (imap (fun i z =>
                            (z_name z,
                             keywise_sum_list (zone_counts_at i <$> rs))) zones)
                   (keywise_sum_list (r_class_counts <$> rs))
                   (sum_list_with r_total rs))],
             Ok ()).
Proof.
  intros Hall. unfold run_video. cbn [opened reads negb].
  rewrite frame_loop_frames_read.
  destruct (frame_loop_returns zones _ (session_start (length zones))
              [EvCapture; EvWriter] Hall) as (rs & Hrs & ->).
  exists rs. split; [done|].
  destruct (foldl_accumulate (length zones) (session_start (length zones)) rs)
    as (Htot & Hcls & Hzone).
  cbn [session_start cumulative_total cumulative_zone_counts
       overall_class_counts] in *.
  set (s' := foldl (accumulate (length zones)) _ rs) in *.
  assert (Hmeta : zones_meta zones (cumulative_zone_counts s')
                  = imap (fun i z =>
                            (z_name z,
                             keywise_sum_list (zone_counts_at i <$> rs))) zones).
  { unfold zones_meta. apply list_eq. intros i.
    rewrite !list_lookup_imap.
    destruct (zones !! i) as [z|] eqn:Hz; [|done]. simpl.
    rewrite Hzone. apply lookup_lt_Some in Hz.
    rewrite decide_True by done. rewrite lookup_replicate_2 by done. simpl.
    by rewrite keywise_sum_empty_l. }
  assert (Hover : default ∅ (overall_class_counts s')
                  = keywise_sum_list (r_class_counts <$> rs)).
  { destruct rs as [|r rs]; [done|].
    rewrite Hcls by done. simpl. by rewrite keywise_sum_empty_l. }
  rewrite Hmeta, Hover, Htot. by rewrite <- app_assoc.
Qed.

Lemma frames_read_stop frames rest :
  frames_read ((Some <$> frames) ++ None :: rest) = frames
  ∧ frames_read (Some <$> frames) = frames.
Proof.
  induction frames as [|boxes frames [IH IH']]; [done|].
  cbn [fmap list_fmap app frames_read]. split; f_equal; done.
Qed.

(** A video of two frames, a failed read and a zone no box falls in: the
    run writes both frames, releases the capture and the writer, and
    prints the sums. *)
Example run_video_two_frames int_of_str np_array :
  let zone_file :=
    [JDict [("name", JStr "A"); ("x", JInt 0); ("y", JInt 0);
            ("w", JInt 10); ("h", JInt 10)]%string] in
  let car := Detection "car" (20, 20, 30, 30) in
  let bus := Detection "bus" (40, 40, 60, 60) in
  main int_of_str np_array zone_file
       (VideoFile (VideoStream true
                     [Some [car; bus]; Some [car]; None; Some [bus]]))
  = ([EvCapture; EvWriter;
      EvWriterFrame [Rectangle (0, 0) (10, 10);
                     Rectangle (20, 20) (30, 30); Circle (25, 25);
                     PutText (JStr "car", 1%nat) (20, 10);
                     Rectangle (40, 40) (60, 60); Circle (50, 50);
                     PutText (JStr "bus", 1%nat) (40, 30)];
      EvWriterFrame [Rectangle (0, 0) (10, 10);
                     Rectangle (20, 20) (30, 30); Circle (25, 25);
                     PutText (JStr "car", 1%nat) (20, 10)];
      EvCaptureRelease; EvWriterRelease;
      EvPrint (Success [(JStr "A", ∅)]
                       {["car"%string := 2%nat; "bus"%string := 1%nat]} 3)],
     Ok ()).
Proof. by vm_compute. Qed.

(** C7. The running sums of lines 229-244 are sums: three frame results
    that each report one "car" in zone A accumulate to [{car: 3}] for the
    zone, to [{car: 3}] globally and to the total 3.  But no such frame
    result comes out of [process_frame_counts]: with a car inside zone A
    it raises [TypeError] (lines 72-76), so a video of three such frames
    ends at its first frame with the exception and prints no result. *)
Theorem three_frames_in_zone_abort_video :
  let a := Zone (Rect (0, 0, 10, 10)) (JStr "A") true in
  let box := Detection "car" (4, 4, 6, 6) in
  let car1 : gmap string nat := {["car"%string := 1%nat]} in
  let r := {| r_frame := []; r_zone_counts := [car1];
              r_class_counts := car1; r_total := 1 |} in
  let s := foldl (accumulate 1) (session_start 1) [r; r; r] in
  (cumulative_zone_counts s = [{["car"%string := 3%nat]}]
   ∧ overall_class_counts s = Some {["car"%string := 3%nat]}
   ∧ cumulative_total s = 3%nat)
  ∧ zone_counts (count_boxes [] [a] [box]) = [car1]
  ∧ process_frame_counts [] [box] [a] = Raise TypeError
  ∧ run_video [a] (VideoStream true [Some [box]; Some [box]; Some [box]])
    = ([EvCapture; EvWriter], Raise TypeError).
Proof. by vm_compute. Qed.

(** C8, amended. The capture and the writer are released, in this order
    and once, when the frame loop ends, and it ends alike at the end of
    the stream and at a failed read.  An exception raised while a frame
    is processed is not caught: it leaves [main] with the frames written
    so far and neither handle released. *)
Theorem handles_released_when_frame_loop_ends zones stream :
  let frames_ok :=
    Forall (fun boxes => is_ok (process_frame_counts [] boxes zones) = true)
           (frames_read stream) in
  (frames_ok →
   ∃ fs out, run_video zones (VideoStream true stream)
             = ([EvCapture; EvWriter] ++ (EvWriterFrame <$> fs)
                ++ [EvCaptureRelease; EvWriterRelease; EvPrint out], Ok ()))
  ∧ (¬ frames_ok →
     ∃ fs e, run_video zones (VideoStream true stream)
             = ([EvCapture; EvWriter] ++ (EvWriterFrame <$> fs), Raise e))
  ∧ (∀ frames rest,
       stream = (Some <$> frames) ++ None :: rest →
       frames_read stream = frames
       ∧ run_video zones (VideoStream true stream)
         = run_video zones (VideoStream true (Some <$> frames))).
Proof.
  intros frames_ok. split; [|split].
  - intros Hok. destruct (run_video_returns zones stream Hok) as (rs & _ & ->).
    exists (r_frame <$> rs). eexists. by rewrite <- list_fmap_compose.
  - intros Hnot. unfold run_video. cbn [opened reads negb].
    rewrite frame_loop_frames_read.
    destruct (frame_loop_raises zones (frames_read stream)
                (session_start (length zones)) [EvCapture; EvWriter] Hnot)
      as (fs & e & Hloop).
    rewrite Hloop. by exists fs, e.
  - intros frames rest ->.
    destruct (frames_read_stop frames rest) as [Hstop Hsome].
    split; [done|]. unfold run_video. cbn [opened negb].
    rewrite frame_loop_frames_read.
    rewrite (frame_loop_frames_read zones (_ (VideoStream true (Some <$> frames)))).
    cbn. by rewrite Hstop, Hsome.
Qed.

(** C8, as stated, fails: one frame with a car inside zone A makes
    [process_frame_counts] raise, and the run ends with the capture and
    the writer acquired and never released. *)
Lemma handles_not_released_when_frame_raises :
  let a := Zone (Rect (0, 0, 10, 10)) (JStr "A") true in
  let box := Detection "car" (4, 4, 6, 6) in
  run_video [a] (VideoStream true [Some [box]])
  = ([EvCapture; EvWriter], Raise TypeError)
  ∧ (EvCaptureRelease ∉ [EvCapture; EvWriter])
  ∧ (EvWriterRelease ∉ [EvCapture; EvWriter]).
Proof.
  split; [by vm_compute|].
  split; intros Hin; repeat (apply elem_of_cons in Hin as [Hin|Hin]; [done|]);
    by apply elem_of_nil in Hin.
Qed.

(** * Further properties of the runner *)

(** ** What [process_frame_counts] returns, and when *)

Lemma count_in_zero z boxes :
  (∀ c, count_in z c boxes = 0%nat)
  ↔ ∀ box, box ∈ boxes → counted z (center box) = false.
Proof.
  unfold count_in. induction boxes as [|b boxes IH].
  - split; [|done]. intros _ box Hin. by apply elem_of_nil in Hin.
  - split.
    + intros Hzero box Hin.
      assert (Hb : counted z (center b) = false).
      { specialize (Hzero (cls_name b)). simpl in Hzero.
        unfold has_class in Hzero at 1.
        rewrite bool_decide_eq_true_2 in Hzero by done. simpl in Hzero.
        by destruct (counted z (center b)). }
      apply elem_of_cons in Hin as [->|Hin]; [done|].
      apply IH; [|done]. intros c. specialize (Hzero c). simpl in Hzero.
      rewrite Hb, andb_false_r in Hzero. done.
    + intros Hnone c. simpl.
      rewrite (Hnone b) by (by left). rewrite andb_false_r.
      apply IH. intros box Hin. apply Hnone. by right.
Qed.

Lemma tally_None n : tally n = None ↔ n = 0%nat.
Proof. by destruct n. Qed.

Lemma zone_counts_all_empty f zones boxes :
  Forall (fun m => m = ∅) (zone_counts (count_boxes f zones boxes))
  ↔ ∀ z box, z ∈ zones → box ∈ boxes → counted z (center box) = false.
Proof.
  rewrite Forall_lookup. split.
  - intros Hall z box Hz Hbox.
    apply list_elem_of_lookup in Hz as [i Hz].
    destruct (count_boxes_zone_counts f zones boxes i z Hz) as (m & Hm & Hc).
    specialize (Hall i m Hm). subst m.
    apply (count_in_zero z boxes); [|done].
    intros c. apply tally_None. by rewrite <- Hc, lookup_empty.
  - intros Hnone i m Hm.
    destruct (lookup_lt_is_Some_2 zones i) as [z Hz].
    { apply lookup_lt_Some in Hm.
      by rewrite count_boxes_zone_counts_length in Hm. }
    destruct (count_boxes_zone_counts f zones boxes i z Hz) as (m' & Hm' & Hc).
    assert (m' = m) as -> by congruence.
    apply map_eq. intros c. rewrite Hc, lookup_empty. apply tally_None.
    apply count_in_zero. intros box Hbox. apply (Hnone z box); [|done].
    by eapply list_elem_of_lookup_2.
Qed.

(** X1. [process_frame_counts] returns exactly when no zone counts any
    box of the frame; one box counted in one zone is enough for it to
    raise, and what it raises is always [TypeError]. *)
Theorem process_frame_counts_returns_iff f boxes zones :
  (is_ok (process_frame_counts f boxes zones) = true
   ↔ ∀ z box, z ∈ zones → box ∈ boxes → counted z (center box) = false)
  ∧ (∀ e, process_frame_counts f boxes zones = Raise e → e = TypeError).
Proof.
  rewrite process_frame_counts_spec. rewrite <- zone_counts_all_empty.
  case_bool_decide as Hall; simpl.
  - split; [done|]. intros e [=].
  - split; [split; [done|by intros ?]|]. by intros e [= <-].
Qed.

Lemma process_frame_counts_returned f boxes zones r :
  process_frame_counts f boxes zones = Ok r →
  r_zone_counts r = replicate (length zones) ∅
  ∧ r_frame r = c_frame (count_boxes f zones boxes)
  ∧ r_class_counts r = class_counts (count_boxes f zones boxes)
  ∧ r_total r = length boxes.
Proof.
  rewrite process_frame_counts_spec.
  case_bool_decide as Hall; [|done]. intros [= <-]. simpl.
  split; [|done].
  apply list_eq. intros i.
  destruct (decide (i < length zones)%nat) as [Hi|Hi].
  - rewrite lookup_replicate_2 by done.
    destruct (lookup_lt_is_Some_2 (zone_counts (count_boxes f zones boxes)) i)
      as [m Hm]; [by rewrite count_boxes_zone_counts_length|].
    rewrite Hm. f_equal. rewrite Forall_lookup in Hall. by eapply Hall.
  - rewrite !lookup_ge_None_2; [done| |].
    + rewrite length_replicate. lia.
    + rewrite count_boxes_zone_counts_length. lia.
Qed.

(** X2. A result of [process_frame_counts] never has a count in a zone:
    every zone dictionary it returns is empty, and the frame it returns
    is the frame as the loop over the boxes left it, with no zone total
    written on it. *)
Theorem returned_zone_counts_empty f boxes zones r :
  process_frame_counts f boxes zones = Ok r →
  r_zone_counts r = replicate (length zones) ∅
  ∧ r_frame r = c_frame (count_boxes f zones boxes).
Proof.
  intros Hr. by destruct (process_frame_counts_returned _ _ _ _ Hr) as (? & ? & _).
Qed.

(** X2 at one box outside the only zone. *)
Lemma returned_zone_counts_empty_witness :
  let a := Zone (Rect (0, 0, 10, 10)) (JStr "A") true in
  let box := Detection "car" (20, 20, 30, 30) in
  let r := {| r_frame := [Rectangle (0, 0) (10, 10);
                          Rectangle (20, 20) (30, 30); Circle (25, 25);
                          PutText (JStr "car", 1%nat) (20, 10)];
              r_zone_counts := [∅];
              r_class_counts := {["car"%string := 1%nat]};
              r_total := 1 |} in
  r_zone_counts r = replicate (length [a]) ∅
  ∧ r_frame r = c_frame (count_boxes [] [a] [box]).
Proof.
  intros a box r.
  apply (returned_zone_counts_empty [] [box] [a] r). by vm_compute.
Defined.

(** ** What is drawn on a frame *)

Lemma draw_zone_from_blank f z :
  draw_zone f z
  = match draw_zone [] z with
    | Ok strokes => Ok (f ++ strokes)
    | Raise e => Raise e
    end.
Proof.
  unfold draw_zone, polylines, rectangle.
  destruct (z_shape z) as [[[[x1 y1] x2] y2]|a].
  - by destruct (_ && _).
  - destruct (data a); simpl; [by rewrite app_nil_r|].
    by destruct (contour a).
Qed.

Lemma draw_zone_rect x1 y1 x2 y2 name sel :
  draw_zone [] (Zone (Rect (x1, y1, x2, y2)) name sel)
  = if c_point (x1, y1) && c_point (x2, y2)
    then Ok [Rectangle (x1, y1) (x2, y2)]
    else Raise CvError.
Proof. done. Qed.

Lemma draw_zone_one_stroke z strokes :
  draw_zone [] z = Ok strokes → (length strokes ≤ 1)%nat.
Proof.
  unfold draw_zone, polylines, rectangle.
  destruct (z_shape z) as [[[[x1 y1] x2] y2]|a].
  - destruct (_ && _); [|done]. intros [= <-]. simpl. lia.
  - destruct (data a); simpl; [intros [= <-]; simpl; lia|].
    destruct (contour a); simpl; [|done]. intros [= <-]. simpl. lia.
Qed.

Lemma draw_zones_on_frame_snoc f zones z :
  draw_zones_on_frame f (zones ++ [z])
  = match draw_zone [] z with
    | Ok strokes => draw_zones_on_frame f zones ++ strokes
    | Raise _ => draw_zones_on_frame f zones
    end.
Proof.
  unfold draw_zones_on_frame. rewrite foldl_app. cbn [foldl].
  rewrite draw_zone_from_blank. by destruct (draw_zone [] z).
Qed.

Lemma draw_zones_on_frame_from_blank f zones :
  draw_zones_on_frame f zones = f ++ draw_zones_on_frame [] zones.
Proof.
  induction zones as [|z zones IH] using rev_ind.
  - simpl. by rewrite app_nil_r.
  - rewrite !draw_zones_on_frame_snoc, IH.
    destruct (draw_zone [] z); [|done]. by rewrite app_assoc.
Qed.

Lemma draw_zones_on_frame_keeps z stroke zones :
  z ∈ zones → draw_zone [] z = Ok [stroke] →
  stroke ∈ draw_zones_on_frame [] zones.
Proof.
  intros Hin Hz. induction zones as [|z' zones IH] using rev_ind.
  - by apply elem_of_nil in Hin.
  - rewrite draw_zones_on_frame_snoc.
    apply elem_of_app in Hin as [Hin| <-%list_elem_of_singleton].
    + specialize (IH Hin). destruct (draw_zone [] z'); [|done].
      apply elem_of_app. by left.
    + rewrite Hz. apply elem_of_app. right. by left.
Qed.

(** Every stroke comes from a zone that could be drawn. *)
Lemma draw_zones_on_frame_origin stroke zones :
  stroke ∈ draw_zones_on_frame [] zones →
  ∃ z strokes, z ∈ zones ∧ draw_zone [] z = Ok strokes ∧ stroke ∈ strokes.
Proof.
  induction zones as [|z zones IH] using rev_ind.
  - by intros ?%elem_of_nil.
  - rewrite draw_zones_on_frame_snoc.
    assert (Hold : stroke ∈ draw_zones_on_frame [] zones →
                   ∃ z' strokes, z' ∈ zones ++ [z]
                                 ∧ draw_zone [] z' = Ok strokes
                                 ∧ stroke ∈ strokes).
    { intros (z' & strokes & Hin & Hz & Hs)%IH.
      exists z', strokes. split; [|done]. apply elem_of_app. by left. }
    destruct (draw_zone [] z) as [strokes|] eqn:Hz; [|done].
    intros [Hin|Hin]%elem_of_app; [by apply Hold|].
    exists z, strokes. split; [|done].
    apply elem_of_app. right. by left.
Qed.

(** X4. Drawing the zones only adds to the frame, at most one outline
    for a zone, and a zone that cannot be drawn does not keep the others
    from being drawn.  The rectangles on the frame are those of the
    rectangle zones whose four coordinates a C [int] holds: a rectangle
    zone with a larger coordinate is refused by [cv2.rectangle] and
    passed over.  Every polygon zone of N x 2 points has its closed line
    on the frame, whatever the other zones are. *)
Theorem draw_zones_on_frame_adds_outlines f zones :
  draw_zones_on_frame f zones = f ++ draw_zones_on_frame [] zones
  ∧ (length (draw_zones_on_frame [] zones) ≤ length zones)%nat
  ∧ (∀ x1 y1 x2 y2,
       Rectangle (x1, y1) (x2, y2) ∈ draw_zones_on_frame [] zones
       ↔ c_point (x1, y1) && c_point (x2, y2) = true
         ∧ ∃ name sel, Zone (Rect (x1, y1, x2, y2)) name sel ∈ zones)
  ∧ (∀ n dat name sel,
       dat ≠ [] → Zone (Poly (NdArray [n; 2%nat] dat)) name sel ∈ zones →
       Polylines (pairs dat) ∈ draw_zones_on_frame [] zones)
  ∧ draw_zones_on_frame f [Zone (Rect (0, 0, 2147483648, 10)) (JStr "") true]
    = f.
Proof.
  split; [apply draw_zones_on_frame_from_blank|]. split; [|split; [|split]].
  - induction zones as [|z zones IH] using rev_ind; [done|].
    rewrite draw_zones_on_frame_snoc, length_app. simpl.
    destruct (draw_zone [] z) as [strokes|] eqn:Hz; [|lia].
    apply draw_zone_one_stroke in Hz. rewrite length_app. lia.
  - intros x1 y1 x2 y2. split.
    + intros (z & strokes & Hin & Hz & Hs)%draw_zones_on_frame_origin.
      destruct z as [[[[[a1 b1] a2] b2]|a] name sel].
      * rewrite draw_zone_rect in Hz.
        destruct (c_point (a1, b1) && c_point (a2, b2)) eqn:Hfit; [|done].
        injection Hz as <-.
        apply list_elem_of_singleton in Hs. injection Hs as -> -> -> ->.
        split; [done|]. by exists name, sel.
      * exfalso. unfold draw_zone, polylines in Hz. cbn [z_shape] in Hz.
        destruct (data a).
        -- injection Hz as <-. by apply elem_of_nil in Hs.
        -- destruct (contour a); [|done]. simpl in Hz. injection Hz as <-.
           by apply list_elem_of_singleton in Hs.
    + intros (Hfit & name & sel & Hin).
      apply (draw_zones_on_frame_keeps _ _ _ Hin).
      by rewrite draw_zone_rect, Hfit.
  - intros n dat name sel Hdat Hin.
    apply (draw_zones_on_frame_keeps _ _ _ Hin).
    unfold draw_zone, polylines. cbn [z_shape data].
    destruct dat as [|d dat]; [done|].
    by rewrite contour_points.
  - change [Zone (Rect (0, 0, 2147483648, 10)) (JStr "") true]
      with ([] ++ [Zone (Rect (0, 0, 2147483648, 10)) (JStr "") true]).
    by rewrite draw_zones_on_frame_snoc, draw_zone_rect.
Qed.

Lemma count_box_frame zones st box :
  c_frame (count_box zones st box)
  = c_frame st
    ++ (let '(x1, y1, x2, y2) := xyxy box in
        [Rectangle (x1, y1) (x2, y2); Circle (center box);
         PutText (JStr (cls_name box),
                  S (default 0%nat (class_counts st !! cls_name box)))
                 (x1, y1 - 10)]).
Proof.
  unfold count_box. destruct (xyxy box) as [[[x1 y1] x2] y2]. simpl.
  by rewrite lookup_incr, decide_True.
Qed.

Lemma boxes_strokes_snoc boxes box :
  boxes_strokes (boxes ++ [box]) = boxes_strokes boxes ++ box_strokes boxes box.
Proof.
  unfold boxes_strokes. rewrite imap_app, concat_app. simpl.
  rewrite Nat.add_0_r, take_app_length, app_nil_r. f_equal. f_equal.
  apply imap_ext. intros k b Hk. simpl.
  rewrite take_app_le; [done|]. apply lookup_lt_Some in Hk. lia.
Qed.

Lemma count_boxes_frame f zones boxes :
  c_frame (count_boxes f zones boxes)
  = draw_zones_on_frame f zones ++ boxes_strokes boxes.
Proof.
  induction boxes as [|box boxes IH] using rev_ind.
  - simpl. by rewrite app_nil_r.
  - rewrite boxes_strokes_snoc, app_assoc, <- IH.
    unfold count_boxes at 1. rewrite foldl_app. cbn [foldl].
    fold (count_boxes f zones boxes).
    rewrite count_box_frame, count_boxes_class_counts, default_tally.
    unfold box_strokes. by destruct (xyxy box) as [[[x1 y1] x2] y2].
Qed.

(** X3. On the frame, after the outlines of the zones, every box has its
    rectangle, the dot of its centre and a label: its class name with its
    rank among the boxes of that class, in the order of the detector.
    The labels of a class count 1, 2, 3, ... *)
Theorem box_labels_count_per_class f zones boxes :
  c_frame (count_boxes f zones boxes)
  = draw_zones_on_frame f zones ++ boxes_strokes boxes
  ∧ ∀ k box x1 y1 x2 y2,
      boxes !! k = Some box → xyxy box = (x1, y1, x2, y2) →
      PutText (JStr (cls_name box),
               S (count_cls (cls_name box) (take k boxes))) (x1, y1 - 10)
      ∈ boxes_strokes boxes.
Proof.
  split; [apply count_boxes_frame|].
  intros k box x1 y1 x2 y2 Hk Hxy. unfold boxes_strokes.
  apply list_elem_of_In, in_concat.
  exists (box_strokes (take k boxes) box). split.
  - apply list_elem_of_In, elem_of_lookup_imap. eauto.
  - unfold box_strokes. rewrite Hxy. right. right. by left.
Qed.

(** ** Rectangles *)

(** X6. A rectangle counts the same points whichever two opposite
    corners it is given by, and in whichever order: the test takes the
    smaller and the larger coordinate itself.  So a rectangle made from
    [x, y, w, h] with a negative [w] or [h] is the rectangle between its
    two corners. *)
Theorem rect_corner_order_irrelevant x1 y1 x2 y2 name sel name' sel' p :
  in_zone (Zone (Rect (x1, y1, x2, y2)) name sel) p
  = in_zone (Zone (Rect (x2, y2, x1, y1)) name' sel') p
  ∧ in_zone (Zone (Rect (x1, y1, x2, y2)) name sel) p
    = in_zone (Zone (Rect (x2, y1, x1, y2)) name' sel') p
  ∧ in_zone (Zone (Rect (x1, y1, x2, y2)) name sel) p
    = in_zone (Zone (Rect (x1, y2, x2, y1)) name' sel') p.
Proof.
  unfold in_zone. simpl.
  by rewrite (Z.min_comm x1 x2), (Z.max_comm x1 x2),
             (Z.min_comm y1 y2), (Z.max_comm y1 y2).
Qed.

Lemma thin_counts_nothing z p : thin z → counted z p = false.
Proof.
  unfold thin, counted, in_zone.
  destruct (z_shape z) as [[[[x1 y1] x2] y2]|a]; [|done].
  intros Hthin. apply not_true_iff_false.
  rewrite !andb_true_iff, !Z.ltb_lt. lia.
Qed.

(** X7. A rectangle whose width or height is at most 1, such as the
    rectangle (0,0,0,0) of a record without geometry, counts no box: with
    only such zones [process_frame_counts] returns for every list of
    boxes, with an empty dictionary for every zone. *)
Theorem thin_zones_count_nothing f zones boxes :
  Forall thin zones →
  (∀ z p, z ∈ zones → counted z p = false)
  ∧ zone_counts (count_boxes f zones boxes) = replicate (length zones) ∅
  ∧ is_ok (process_frame_counts f boxes zones) = true.
Proof.
  intros Hthin.
  assert (Hnone : ∀ z p, z ∈ zones → counted z p = false).
  { intros z p Hz. apply thin_counts_nothing.
    rewrite Forall_forall in Hthin. by apply Hthin. }
  assert (Hall : Forall (fun m => m = ∅) (zone_counts (count_boxes f zones boxes))).
  { apply zone_counts_all_empty. intros z box Hz _. by apply Hnone. }
  split; [done|]. split.
  - apply list_eq. intros i.
    destruct (decide (i < length zones)%nat) as [Hi|Hi].
    + rewrite lookup_replicate_2 by done.
      destruct (lookup_lt_is_Some_2
                  (zone_counts (count_boxes f zones boxes)) i) as [m Hm];
        [by rewrite count_boxes_zone_counts_length|].
      rewrite Hm. f_equal. rewrite Forall_lookup in Hall. by eapply Hall.
    + rewrite !lookup_ge_None_2; [done| |].
      * rewrite length_replicate. lia.
      * rewrite count_boxes_zone_counts_length. lia.
  - rewrite process_frame_counts_spec. by rewrite bool_decide_eq_true_2.
Qed.

(** X7 at the rectangle of a record without geometry and a box around
    the origin. *)
Lemma thin_zones_count_nothing_witness :
  let zones := [Zone (Rect (0, 0, 0, 0)) (JStr "A") true] in
  let boxes := [Detection "car" (-5, -5, 5, 5)] in
  (∀ z p, z ∈ zones → counted z p = false)
  ∧ zone_counts (count_boxes [] zones boxes) = replicate (length zones) ∅
  ∧ is_ok (process_frame_counts [] boxes zones) = true.
Proof.
  intros zones boxes. apply (thin_zones_count_nothing [] zones boxes).
  repeat constructor. simpl. lia.
Defined.

(** ** More on zone normalisation *)

Section NormalisationLaws.

Variable int_of_str : string → result Z.
Variable np_array : list json → result ndarray.

Lemma for_each_normalize_from acc records :
  for_each (fun normalized z =>
              r ← normalize_zone int_of_str np_array z;
              Ok (normalized ++ option_list r)) records acc
  = match normalize_zones int_of_str np_array records with
    | Ok zs => Ok (acc ++ zs)
    | Raise e => Raise e
    end.
Proof.
  unfold normalize_zones. revert acc.
  induction records as [|z records IH]; intros acc; simpl.
  - by rewrite app_nil_r.
  - destruct (normalize_zone int_of_str np_array z) as [r|e]; simpl; [|done].
    rewrite IH, (IH (option_list r)).
    destruct (for_each _ records []); simpl; [|done]. by rewrite app_assoc.
Qed.

Lemma normalize_zones_cons z records :
  normalize_zones int_of_str np_array (z :: records)
  = match normalize_zone int_of_str np_array z with
    | Raise e => Raise e
    | Ok r =>
        match normalize_zones int_of_str np_array records with
        | Ok zs => Ok (option_list r ++ zs)
        | Raise e => Raise e
        end
    end.
Proof.
  unfold normalize_zones at 1. simpl.
  destruct (normalize_zone int_of_str np_array z) as [r|e]; simpl; [|done].
  apply for_each_normalize_from.
Qed.

Lemma normalize_zones_app records records' :
  normalize_zones int_of_str np_array (records ++ records')
  = match normalize_zones int_of_str np_array records with
    | Raise e => Raise e
    | Ok zs =>
        match normalize_zones int_of_str np_array records' with
        | Ok zs' => Ok (zs ++ zs')
        | Raise e => Raise e
        end
    end.
Proof.
  induction records as [|z records IH].
  - simpl. by destruct (normalize_zones _ _ records').
  - rewrite <- app_comm_cons, !normalize_zones_cons, IH.
    destruct (normalize_zone int_of_str np_array z) as [r|e]; [|done].
    destruct (normalize_zones _ _ records) as [zs|e]; [|done].
    destruct (normalize_zones _ _ records') as [zs'|e]; [|done].
    by rewrite app_assoc.
Qed.

Lemma normalize_zones_length records zs :
  normalize_zones int_of_str np_array records = Ok zs →
  (length zs ≤ length records)%nat.
Proof.
  revert zs. induction records as [|z records IH]; intros zs.
  - intros [= <-]. done.
  - rewrite normalize_zones_cons.
    destruct (normalize_zone int_of_str np_array z) as [r|e]; [|done].
    destruct (normalize_zones _ _ records) as [zs'|e]; [|done].
    intros [= <-]. specialize (IH zs' eq_refl).
    rewrite length_app. destruct r; simpl; lia.
Qed.

End NormalisationLaws.

(** X8. Normalising a zone file goes record by record, in order: the
    zones of two lists of records put end to end are the zones of the
    first followed by the zones of the second; a record that raises ends
    the normalisation, whatever comes after it; and there are never more
    zones than records. *)
Theorem normalize_zones_in_order int_of_str np_array records records' :
  normalize_zones int_of_str np_array (records ++ records')
  = match normalize_zones int_of_str np_array records with
    | Raise e => Raise e
    | Ok zs =>
        match normalize_zones int_of_str np_array records' with
        | Ok zs' => Ok (zs ++ zs')
        | Raise e => Raise e
        end
    end
  ∧ match normalize_zones int_of_str np_array records with
    | Ok zs => (length zs ≤ length records)%nat
    | Raise _ => True
    end.
Proof.
  split; [apply normalize_zones_app|].
  destruct (normalize_zones _ _ records) as [zs|e] eqn:Hzs; [|done].
  by eapply normalize_zones_length.
Qed.

(** X9. A record that is a dictionary is never dropped: it becomes a
    zone or the normalisation raises.  A list of more than two items
    under ['points'] makes it a polygon, before ['pts'] and before
    [x], [y], [w], [h], which are then not looked at; and when
    [np.array] raises on that list the exception is not caught. *)
Theorem dict_record_never_dropped int_of_str np_array kvs :
  normalize_zone int_of_str np_array (JDict kvs) ≠ Ok None
  ∧ (∀ l, vertex_list kvs "points" = Some l →
          normalize_zone int_of_str np_array (JDict kvs)
          = match np_array l with
            | Ok a => Ok (Some (Zone (Poly a)
                                  (Json.get_default kvs "name" (JStr ""))
                                  (Json.truthy (Json.get_default kvs "selected"
                                                                 (JBool true)))))
            | Raise e => Raise e
            end)
  ∧ (∀ l, vertex_list kvs "points" = None → vertex_list kvs "pts" = Some l →
          normalize_zone int_of_str np_array (JDict kvs)
          = match np_array l with
            | Ok a => Ok (Some (Zone (Poly a)
                                  (Json.get_default kvs "name" (JStr ""))
                                  (Json.truthy (Json.get_default kvs "selected"
                                                                 (JBool true)))))
            | Raise e => Raise e
            end).
Proof.
  split; [|split].
  - unfold normalize_zone.
    by destruct (normalize_dict int_of_str np_array kvs).
  - intros l Hl. unfold normalize_zone, normalize_dict. rewrite Hl.
    by destruct (np_array l).
  - intros l Hnone Hl. unfold normalize_zone, normalize_dict.
    rewrite Hnone, Hl. by destruct (np_array l).
Qed.

(** X10. Only a dictionary and a sequence of four items or more can make
    the normalisation raise.  Every other record is handled without an
    exception, a sequence of three items also when [np.array] raises on
    it or gives an array that has no second dimension: the record is
    then dropped. *)
Theorem short_records_never_raise int_of_str np_array z :
  match z with
  | JDict _ | JList (_ :: _ :: _ :: _ :: _) => True
  | JList [p1; p2; p3] =>
      is_ok (normalize_zone int_of_str np_array z) = true
      ∧ (is_ok (np_array [p1; p2; p3]) = false →
         normalize_zone int_of_str np_array z = Ok None)
      ∧ (∀ n dat, np_array [p1; p2; p3] = Ok (NdArray [n] dat) →
                  normalize_zone int_of_str np_array z = Ok None)
  | _ => normalize_zone int_of_str np_array z = Ok None
  end.
Proof.
  destruct z as [| | | |[|p1 [|p2 [|p3 [|p4 l]]]]|]; try done.
  unfold normalize_zone. split; [|split].
  - by destruct (raw_polygon np_array [p1; p2; p3]).
  - unfold raw_polygon. by destruct (np_array [p1; p2; p3]).
  - intros n dat Hnp. unfold raw_polygon. rewrite Hnp. simpl.
    unfold shape_at. simpl. by case_decide.
Qed.

(** ** The runs of [main] *)

Lemma keywise_sum_list_snoc ds d :
  keywise_sum_list (ds ++ [d]) = keywise_sum (keywise_sum_list ds) d.
Proof. unfold keywise_sum_list. by rewrite foldl_app. Qed.

Lemma keywise_sum_list_empties (ds : list (gmap string nat)) :
  Forall (fun d => d = ∅) ds → keywise_sum_list ds = ∅.
Proof.
  induction ds as [|d ds IH] using rev_ind; [done|].
  intros [Hds ->%Forall_singleton]%Forall_app.
  rewrite keywise_sum_list_snoc, IH by done. apply keywise_sum_empty_l.
Qed.

Lemma zones_meta_empties zones :
  zones_meta zones (replicate (length zones) ∅)
  = (fun z => (z_name z, ∅)) <$> zones.
Proof.
  unfold zones_meta. apply list_eq. intros i.
  rewrite list_lookup_imap, list_lookup_fmap.
  destruct (zones !! i) as [z|] eqn:Hz; [|done]. simpl.
  by rewrite lookup_replicate_2 by (by eapply lookup_lt_Some).
Qed.

(** The three ways an image run ends. *)
Lemma run_image_cases zones img :
  (img = None
   ∧ run_image zones img = ([EvPrint (Failure CouldNotReadImage)], Ok ()))
  ∨ (∃ boxes r f,
       img = Some boxes
       ∧ process_frame_counts [] boxes zones = Ok r
       ∧ run_image zones img
         = ([EvImwrite f;
             EvPrint (Success ((fun z => (z_name z, ∅)) <$> zones)
                              (r_class_counts r) (r_total r))], Ok ()))
  ∨ (∃ e, run_image zones img = ([], Raise e)).
Proof.
  destruct img as [boxes|]; [|by left]. right. unfold run_image.
  destruct (process_frame_counts [] boxes zones) as [r|e] eqn:Hr;
    simpl; [|right; by exists e].
  destruct (for_each _ _ _) as [f|e]; simpl; [|right; by exists e].
  left. exists boxes, r, f. split; [done|]. split; [done|].
  destruct (process_frame_counts_returned _ _ _ _ Hr) as (-> & _).
  by rewrite zones_meta_empties.
Qed.

Lemma frames_ok_dec zones (frames : list (list detection)) :
  Decision (Forall (fun boxes =>
                      is_ok (process_frame_counts [] boxes zones) = true)
                   frames).
Proof. apply Forall_dec. intros boxes. apply _. Defined.

(** The three ways a video run ends. *)
Lemma run_video_cases zones v :
  (opened v = false
   ∧ run_video zones v
     = ([EvCapture; EvPrint (Failure CouldNotOpenVideo)], Ok ()))
  ∨ (∃ rs,
       Forall2 (fun boxes r => process_frame_counts [] boxes zones = Ok r)
               (frames_read (reads v)) rs
       ∧ run_video zones v
         = ([EvCapture; EvWriter] ++ (EvWriterFrame ∘ r_frame <$> rs)
            ++ [EvCaptureRelease; EvWriterRelease;
                EvPrint (Success ((fun z => (z_name z, ∅)) <$> zones)
                                 (keywise_sum_list (r_class_counts <$> rs))
                                 (sum_list_with r_total rs))], Ok ()))
  ∨ (∃ fs e, run_video zones v
             = ([EvCapture; EvWriter] ++ (EvWriterFrame <$> fs), Raise e)).
Proof.
  destruct v as [[] stream]; [|by left]. right. cbn [reads].
  destruct (frames_ok_dec zones (frames_read stream)) as [Hok|Hnot].
  - left. destruct (run_video_returns zones stream Hok) as (rs & Hrs & ->).
    exists rs. split; [done|].
    assert (Hmeta : imap (fun i z =>
                            (z_name z,
                             keywise_sum_list (zone_counts_at i <$> rs))) zones
                    = (fun z => (z_name z, ∅)) <$> zones); [|by rewrite Hmeta].
    rewrite <- zones_meta_empties. unfold zones_meta.
    apply imap_ext. intros i z Hz. simpl. f_equal.
    rewrite lookup_replicate_2 by (by eapply lookup_lt_Some). simpl.
    apply keywise_sum_list_empties, Forall_fmap, Forall_forall.
    intros r Hr. simpl. apply list_elem_of_lookup in Hr as [j Hj].
    destruct (Forall2_lookup_r _ _ _ _ _ Hrs Hj) as (boxes & _ & Hbox).
    destruct (process_frame_counts_returned _ _ _ _ Hbox) as (Hzc & _).
    unfold zone_counts_at. rewrite Hzc.
    by rewrite lookup_replicate_2 by (by eapply lookup_lt_Some).
  - right. unfold run_video. cbn [opened reads negb].
    rewrite frame_loop_frames_read.
    destruct (frame_loop_raises zones (frames_read stream)
                (session_start (length zones)) [EvCapture; EvWriter] Hnot)
      as (fs & e & ->). by exists fs, e.
Qed.

Lemma printed_frames fs : printed (EvWriterFrame <$> fs) = [].
Proof. unfold printed. by induction fs. Qed.

Lemma images_written_frames fs : images_written (EvWriterFrame <$> fs) = [].
Proof. unfold images_written. by induction fs. Qed.

Lemma printed_app t t' : printed (t ++ t') = printed t ++ printed t'.
Proof. unfold printed. apply omap_app. Qed.

Lemma images_written_app t t' :
  images_written (t ++ t') = images_written t ++ images_written t'.
Proof. unfold images_written. apply omap_app. Qed.

Lemma elem_of_printed o trace : o ∈ printed trace ↔ EvPrint o ∈ trace.
Proof.
  unfold printed. rewrite list_elem_of_omap. split.
  - intros (ev & Hin & Hev). destruct ev; try done. by injection Hev as ->.
  - intros Hin. by exists (EvPrint o).
Qed.

(** What a run printed and which images it wrote, by the way it ends. *)
Lemma run_image_printed zones img :
  match (run_image zones img).2 with
  | Ok _ =>
      (∃ o, printed (run_image zones img).1 = [o])
      ∧ ∀ meta cc total,
          Success meta cc total ∈ printed (run_image zones img).1 →
          meta = (fun z => (z_name z, ∅)) <$> zones
  | Raise _ => (run_image zones img).1 = []
  end.
Proof.
  destruct (run_image_cases zones img)
    as [[_ ->]|[(boxes & r & f & _ & _ & ->)|[e ->]]]; simpl; [| |done].
  - split; [by eexists|]. intros meta cc total Hin.
    by apply list_elem_of_singleton in Hin.
  - split; [by eexists|]. intros meta cc total Hin.
    apply list_elem_of_singleton in Hin. by injection Hin as -> _ _.
Qed.

Lemma run_video_printed zones v :
  match (run_video zones v).2 with
  | Ok _ =>
      (∃ o, printed (run_video zones v).1 = [o])
      ∧ ∀ meta cc total,
          Success meta cc total ∈ printed (run_video zones v).1 →
          meta = (fun z => (z_name z, ∅)) <$> zones
  | Raise _ => printed (run_video zones v).1 = []
  end
  ∧ images_written (run_video zones v).1 = [].
Proof.
  destruct (run_video_cases zones v)
    as [[_ ->]|[(rs & _ & ->)|(fs & e & ->)]]; cbn [fst snd].
  - split; [|done]. split; [by eexists|]. intros meta cc total Hin.
    by apply list_elem_of_singleton in Hin.
  - rewrite list_fmap_compose.
    rewrite !printed_app, !images_written_app, printed_frames,
      images_written_frames.
    split; [|done]. split; [by eexists|]. intros meta cc total Hin.
    apply list_elem_of_singleton in Hin. by injection Hin as -> _ _.
  - rewrite !printed_app, !images_written_app, printed_frames,
      images_written_frames. done.
Qed.

(** X11. In the summary a run prints, the list of zones has one entry
    for every zone of the zone file that is selected, in the order of the
    file, under the zone's name, and the counts of every entry are
    empty. *)
Theorem summary_lists_selected_zones int_of_str np_array records input
    meta cc total :
  EvPrint (Success meta cc total) ∈ (main int_of_str np_array records input).1 →
  ∃ normalized,
    normalize_zones int_of_str np_array records = Ok normalized
    ∧ meta = (fun z => (z_name z, ∅)) <$> List.filter z_selected normalized.
Proof.
  unfold main.
  destruct (normalize_zones int_of_str np_array records) as [normalized|e];
    [|by intros ?%elem_of_nil].
  intros Hin. exists normalized. split; [done|].
  apply elem_of_printed in Hin. destruct input as [img|v|].
  - pose proof (run_image_printed (List.filter z_selected normalized) img) as H.
    destruct (run_image _ img) as [trace [[]|e]]; simpl in *.
    + destruct H as [_ H]. by eapply H.
    + subst trace. by apply elem_of_nil in Hin.
  - pose proof (run_video_printed (List.filter z_selected normalized) v)
      as [H _].
    destruct (run_video _ v) as [trace [[]|e]]; simpl in *.
    + destruct H as [_ H]. by eapply H.
    + rewrite H in Hin. by apply elem_of_nil in Hin.
  - simpl in Hin. by apply list_elem_of_singleton in Hin.
Qed.

(** X11 at a zone file of three records, the second not selected, and a
    video of one frame. *)
Lemma summary_lists_selected_zones_witness :
  let rect name sel :=
    JDict [("name", JStr name); ("selected", JBool sel);
           ("x", JInt 0); ("y", JInt 0); ("w", JInt 10); ("h", JInt 10)]%string in
  let records := [rect "A"%string true; rect "B"%string false;
                  rect "C"%string true] in
  ∃ normalized,
    normalize_zones (fun _ => Raise ValueError) (fun _ => Raise ValueError)
                    records = Ok normalized
    ∧ [(JStr "A", ∅ : gmap string nat); (JStr "C", ∅)]
      = (fun z => (z_name z, ∅)) <$> List.filter z_selected normalized.
Proof.
  intros rect records.
  apply (summary_lists_selected_zones
           (fun _ => Raise ValueError) (fun _ => Raise ValueError) records
           (VideoFile (VideoStream true [Some [Detection "car" (20, 20, 30, 30)]]))
           _ {["car"%string := 1%nat]} 1%nat).
  vm_compute. do 5 apply list_elem_of_further. apply list_elem_of_here.
Defined.


(** ** The sums of a video, by the boxes of its frames *)

Lemma keywise_sum_list_cons d ds :
  keywise_sum_list (d :: ds) = keywise_sum d (keywise_sum_list ds).
Proof.
  unfold keywise_sum_list at 1. cbn [foldl].
  by rewrite keywise_sum_empty_l, keywise_sum_foldl_shift.
Qed.

Lemma tally_add a b :
  union_with (fun x y => Some (x + y)%nat) (tally a) (tally b) = tally (a + b).
Proof. destruct a, b; simpl; try done. by rewrite Nat.add_0_r. Qed.

Lemma count_cls_app c boxes boxes' :
  count_cls c (boxes ++ boxes')
  = (count_cls c boxes + count_cls c boxes')%nat.
Proof. unfold count_cls. by rewrite List.filter_app, length_app. Qed.

Lemma frame_results_sum zones frames rs :
  Forall2 (fun boxes r => process_frame_counts [] boxes zones = Ok r)
          frames rs →
  sum_list_with r_total rs = length (concat frames)
  ∧ (∀ c, keywise_sum_list (r_class_counts <$> rs) !! c
          = tally (count_cls c (concat frames)))
  ∧ r_frame <$> rs
    = (fun boxes => c_frame (count_boxes [] zones boxes)) <$> frames.
Proof.
  induction 1 as [|boxes r frames rs Hr _ (IHtot & IHcls & IHfr)]; [done|].
  destruct (process_frame_counts_returned _ _ _ _ Hr) as (_ & Hf & Hc & Ht).
  split; [|split].
  - simpl. rewrite length_app, IHtot, Ht. done.
  - intros c. cbn [fmap list_fmap concat].
    rewrite keywise_sum_list_cons. unfold keywise_sum.
    rewrite lookup_union_with, IHcls, Hc, count_boxes_class_counts.
    by rewrite tally_add, count_cls_app.
  - cbn [fmap list_fmap]. by rewrite Hf, <- IHfr.
Qed.

Lemma run_video_summary zones stream :
  Forall (fun boxes => is_ok (process_frame_counts [] boxes zones) = true)
         (frames_read stream) →
  ∃ cc,
    run_video zones (VideoStream true stream)
    = ([EvCapture; EvWriter]
       ++ (EvWriterFrame ∘ (fun boxes => c_frame (count_boxes [] zones boxes))
             <$> frames_read stream)
       ++ [EvCaptureRelease; EvWriterRelease;
           EvPrint (Success ((fun z => (z_name z, ∅)) <$> zones) cc
                            (length (concat (frames_read stream))))],
       Ok ())
    ∧ ∀ c, cc !! c = tally (count_cls c (concat (frames_read stream))).
Proof.
  intros Hok.
  destruct (run_video_cases zones (VideoStream true stream))
    as [[[=] _]|[(rs & Hrs & Hrun)|(fs & e & Hrun)]]; cbn [reads] in *.
  - destruct (frame_results_sum zones _ _ Hrs) as (Htot & Hcls & Hfr).
    exists (keywise_sum_list (r_class_counts <$> rs)). split; [|done].
    rewrite Hrun, Htot. rewrite !list_fmap_compose, Hfr. done.
  - destruct (run_video_returns zones stream Hok) as (rs & _ & Hrun').
    by rewrite Hrun in Hrun'.
Qed.

(** X13. When every frame of a video is processed to its end, the run
    writes one annotated frame for each frame read, releases the capture
    and the writer, and prints a summary whose total is the number of
    boxes of all the frames read and whose global counts give, for every
    class, the number of boxes of that class in all these frames: a thing
    seen in K frames counts K times. *)
Theorem video_summary_counts_all_boxes zones stream :
  Forall (fun boxes => is_ok (process_frame_counts [] boxes zones) = true)
         (frames_read stream) →
  ∃ cc,
    run_video zones (VideoStream true stream)
    = ([EvCapture; EvWriter]
       ++ (EvWriterFrame ∘ (fun boxes => c_frame (count_boxes [] zones boxes))
             <$> frames_read stream)
       ++ [EvCaptureRelease; EvWriterRelease;
           EvPrint (Success ((fun z => (z_name z, ∅)) <$> zones) cc
                            (length (concat (frames_read stream))))],
       Ok ())
    ∧ ∀ c, cc !! c = tally (count_cls c (concat (frames_read stream))).
Proof.
  intros Hok.
  destruct (run_video_cases zones (VideoStream true stream))
    as [[[=] _]|[(rs & Hrs & Hrun)|(fs & e & Hrun)]]; cbn [reads] in *.
  - destruct (frame_results_sum zones _ _ Hrs) as (Htot & Hcls & Hfr).
    exists (keywise_sum_list (r_class_counts <$> rs)). split; [|done].
    rewrite Hrun, Htot. rewrite !list_fmap_compose, Hfr. done.
  - destruct (run_video_returns zones stream Hok) as (rs & _ & Hrun').
    by rewrite Hrun in Hrun'.
Qed.

(** X13 at a video of two frames, with one zone that holds no box. *)
Lemma video_summary_counts_all_boxes_witness :
  let zones := [Zone (Rect (0, 0, 10, 10)) (JStr "A") true] in
  let car := Detection "car" (20, 20, 30, 30) in
  let stream := [Some [car; car]; Some [car]] in
  ∃ cc,
    run_video zones (VideoStream true stream)
    = ([EvCapture; EvWriter]
       ++ (EvWriterFrame ∘ (fun boxes => c_frame (count_boxes [] zones boxes))
             <$> frames_read stream)
       ++ [EvCaptureRelease; EvWriterRelease;
           EvPrint (Success ((fun z => (z_name z, ∅)) <$> zones) cc
                            (length (concat (frames_read stream))))],
       Ok ())
    ∧ ∀ c, cc !! c = tally (count_cls c (concat (frames_read stream))).
Proof.
  intros zones car stream.
  apply (video_summary_counts_all_boxes zones stream).
  repeat constructor.
Defined.

Lemma frame_loop_ok_prefix zones good rest s trace :
  Forall (fun boxes => is_ok (process_frame_counts [] boxes zones) = true)
         good →
  ∃ s', frame_loop zones ((Some <$> good) ++ rest) s trace
        = frame_loop zones rest s'
            (trace ++ (EvWriterFrame
                         ∘ (fun boxes => c_frame (count_boxes [] zones boxes))
                         <$> good)).
Proof.
  intros Hok. revert s trace.
  induction Hok as [|boxes good Hbox _ IH]; intros s trace.
  - exists s. simpl. by rewrite app_nil_r.
  - cbn [fmap list_fmap app frame_loop].
    destruct (process_frame_counts [] boxes zones) as [r|] eqn:Hr; [|done].
    destruct (process_frame_counts_returned _ _ _ _ Hr) as (_ & -> & _).
    destruct (IH (accumulate (length zones) s r)
                 (trace ++ [EvWriterFrame (c_frame (count_boxes [] zones boxes))]))
      as (s' & ->).
    exists s'. by rewrite <- app_assoc.
Qed.

(** X14. A video run stops at the first frame with a box counted in a
    zone: the frames before it have been annotated and written, the
    exception is a [TypeError], the frames after it are never read, and
    nothing is printed. *)
Theorem video_stops_at_first_counted_box zones good bad rest :
  Forall (fun boxes => is_ok (process_frame_counts [] boxes zones) = true)
         good →
  is_ok (process_frame_counts [] bad zones) = false →
  run_video zones (VideoStream true ((Some <$> good) ++ Some bad :: rest))
  = ([EvCapture; EvWriter]
     ++ (EvWriterFrame ∘ (fun boxes => c_frame (count_boxes [] zones boxes))
           <$> good),
     Raise TypeError).
Proof.
  intros Hgood Hbad. unfold run_video. cbn [opened reads negb].
  destruct (frame_loop_ok_prefix zones good (Some bad :: rest)
              (session_start (length zones)) [EvCapture; EvWriter] Hgood)
    as (s' & ->).
  cbn [frame_loop]. rewrite process_frame_counts_spec in Hbad |- *.
  by case_bool_decide.
Qed.

(** X14 at a video whose second frame has a car in the zone. *)
Lemma video_stops_at_first_counted_box_witness :
  let zones := [Zone (Rect (0, 0, 10, 10)) (JStr "A") true] in
  let outside := [Detection "car" (20, 20, 30, 30)] in
  let inside := [Detection "car" (4, 4, 6, 6)] in
  run_video zones (VideoStream true ((Some <$> [outside]) ++ Some inside
                                       :: [Some outside; None]))
  = ([EvCapture; EvWriter]
     ++ (EvWriterFrame ∘ (fun boxes => c_frame (count_boxes [] zones boxes))
           <$> [outside]),
     Raise TypeError).
Proof.
  intros zones outside inside.
  apply (video_stops_at_first_counted_box zones [outside] inside
           [Some outside; None]).
  - by repeat constructor.
  - by vm_compute.
Defined.

(** ** The running sums do not depend on the order of the frames *)

Lemma keywise_sum_comm (a b : gmap string nat) :
  keywise_sum a b = keywise_sum b a.
Proof.
  apply map_eq. intros k. unfold keywise_sum. rewrite !lookup_union_with.
  destruct (a !! k), (b !! k); simpl; try done. f_equal. lia.
Qed.

Lemma keywise_sum_assoc (a b c : gmap string nat) :
  keywise_sum a (keywise_sum b c) = keywise_sum (keywise_sum a b) c.
Proof.
  apply map_eq. intros k. unfold keywise_sum. rewrite !lookup_union_with.
  destruct (a !! k), (b !! k), (c !! k); simpl; try done. f_equal. lia.
Qed.

Lemma keywise_sum_list_perm ds ds' :
  Permutation ds ds' → keywise_sum_list ds = keywise_sum_list ds'.
Proof.
  induction 1 as [|d ds ds' _ IH|d d' ds|ds ds' ds'' _ IH _ IH'].
  - done.
  - by rewrite !keywise_sum_list_cons, IH.
  - rewrite !keywise_sum_list_cons, !keywise_sum_assoc.
    by rewrite (keywise_sum_comm d d').
  - by rewrite IH.
Qed.

(** X15. The running sums of a video are sums: folding the same frame
    results in another order ends with the same cumulative total, the
    same global counts and the same counts in every zone. *)
Theorem accumulate_order_irrelevant n s rs rs' :
  Permutation rs rs' →
  cumulative_total (foldl (accumulate n) s rs)
  = cumulative_total (foldl (accumulate n) s rs')
  ∧ overall_class_counts (foldl (accumulate n) s rs)
    = overall_class_counts (foldl (accumulate n) s rs')
  ∧ cumulative_zone_counts (foldl (accumulate n) s rs)
    = cumulative_zone_counts (foldl (accumulate n) s rs').
Proof.
  intros Hperm.
  destruct (foldl_accumulate n s rs) as (Htot & Hcls & Hzone).
  destruct (foldl_accumulate n s rs') as (Htot' & Hcls' & Hzone').
  split; [|split].
  - rewrite Htot, Htot'. f_equal.
    clear -Hperm. induction Hperm; simpl; lia.
  - destruct rs as [|r rs].
    + apply Permutation_nil in Hperm. by subst rs'.
    + rewrite Hcls by done. rewrite Hcls'.
      * do 2 f_equal. apply keywise_sum_list_perm. by apply fmap_Permutation.
      * intros ->. symmetry in Hperm. by apply Permutation_nil in Hperm.
  - apply list_eq. intros i. rewrite Hzone, Hzone'.
    case_decide; [|done].
    destruct (cumulative_zone_counts s !! i); [|done]. simpl.
    do 2 f_equal. apply keywise_sum_list_perm. by apply fmap_Permutation.
Qed.

(** X15 at two frame results taken in either order. *)
Lemma accumulate_order_irrelevant_witness :
  let r1 := {| r_frame := []; r_zone_counts := [∅];
               r_class_counts := {["car"%string := 2%nat]}; r_total := 2 |} in
  let r2 := {| r_frame := []; r_zone_counts := [∅];
               r_class_counts := {["bus"%string := 1%nat]}; r_total := 1 |} in
  let s := session_start 1 in
  cumulative_total (foldl (accumulate 1) s [r1; r2])
  = cumulative_total (foldl (accumulate 1) s [r2; r1])
  ∧ overall_class_counts (foldl (accumulate 1) s [r1; r2])
    = overall_class_counts (foldl (accumulate 1) s [r2; r1])
  ∧ cumulative_zone_counts (foldl (accumulate 1) s [r1; r2])
    = cumulative_zone_counts (foldl (accumulate 1) s [r2; r1]).
Proof.
  intros r1 r2 s.
  apply (accumulate_order_irrelevant 1 s [r1; r2] [r2; r1]). apply perm_swap.
Defined.

(** ** The kind of the input *)

(** X16. No path is both an image and a video for [main], whatever its
    extension: the two lists of extensions have no member in common, so
    the order of the two tests of [main] does not matter. *)
Theorem image_and_video_kinds_disjoint splitext_ext lower path img v :
  (is_image_file splitext_ext lower path
   && is_video_file splitext_ext lower path = false)
  ∧ media_of splitext_ext lower path img v
    = if is_video_file splitext_ext lower path then VideoFile v
      else if is_image_file splitext_ext lower path then Image img
      else Unsupported.
Proof.
  assert (Hdisj : is_image_file splitext_ext lower path
                  && is_video_file splitext_ext lower path = false).
  { unfold is_image_file, is_video_file.
    apply not_true_iff_false. rewrite andb_true_iff, !bool_decide_eq_true.
    intros [Himg Hvid].
    repeat (apply elem_of_cons in Himg as [Himg|Himg];
            [rewrite Himg in Hvid;
             repeat (apply elem_of_cons in Hvid as [Hvid|Hvid]; [done|]);
             by apply elem_of_nil in Hvid|]).
    by apply elem_of_nil in Himg. }
  split; [done|]. unfold media_of.
  by destruct (is_image_file _ _ _), (is_video_file _ _ _).
Qed.

(** ** The zone file *)

Lemma normalize_zones_strings int_of_str np_array (l : list string) :
  normalize_zones int_of_str np_array (JStr <$> l) = Ok [].
Proof.
  induction l as [|s l IH]; [done|].
  cbn [fmap list_fmap]. rewrite normalize_zones_cons. simpl. by rewrite IH.
Qed.

Lemma main_strings int_of_str np_array (l : list string) input :
  main int_of_str np_array (JStr <$> l) input
  = main int_of_str np_array [] input.
Proof. unfold main. by rewrite normalize_zones_strings. Qed.

(** X17. A zone file whose top level is not a list is not refused: an
    object is iterated over its keys and a string over its characters,
    none of them is a zone, and the run goes on without any zone, as with
    an empty list; [null], a boolean or a number cannot be iterated and
    the run ends with a [TypeError]. *)
Theorem zone_file_top_level int_of_str np_array chars files arg cwd_zones input :
  main_with_zone_file int_of_str np_array chars files arg cwd_zones input
  = match load_zones files arg cwd_zones with
    | JList records => main int_of_str np_array records input
    | JDict _ | JStr _ => main int_of_str np_array [] input
    | JNull | JBool _ | JInt _ => ([], Raise TypeError)
    end.
Proof.
  unfold main_with_zone_file.
  destruct (load_zones files arg cwd_zones) as [| | |s|l|kvs]; simpl; try done.
  - apply main_strings.
  - apply main_strings.
Qed.

Lemma no_zone_frames_ok (frames : list (list detection)) :
  Forall (fun boxes => is_ok (process_frame_counts [] boxes []) = true) frames.
Proof.
  apply Forall_forall. intros boxes _.
  rewrite process_frame_counts_spec. rewrite bool_decide_eq_true_2; [done|].
  apply zone_counts_all_empty. intros z box Hz. by apply elem_of_nil in Hz.
Qed.

Lemma main_no_zones_image int_of_str np_array boxes :
  main int_of_str np_array [] (Image (Some boxes))
  = ([EvImwrite (boxes_strokes boxes);
      EvPrint (Success [] (class_counts (count_boxes [] [] boxes))
                       (length boxes))], Ok ()).
Proof.
  unfold main, run_image. cbn [normalize_zones for_each List.filter].
  rewrite process_frame_counts_spec.
  rewrite bool_decide_eq_true_2.
  - cbn. by rewrite count_boxes_frame.
  - apply zone_counts_all_empty. intros z box Hz. by apply elem_of_nil in Hz.
Qed.

(** X18. Without zones every run goes to its end.  An image that can be
    read is written back with the three strokes of every box and the
    summary gives the number of boxes as the total; a video that opens is
    written frame by frame up to the end of the stream or the first
    failed read, and its summary gives the number of boxes of all these
    frames. *)
Theorem run_without_zones_completes int_of_str np_array boxes stream :
  main int_of_str np_array [] (Image (Some boxes))
  = ([EvImwrite (boxes_strokes boxes);
      EvPrint (Success [] (class_counts (count_boxes [] [] boxes))
                       (length boxes))], Ok ())
  ∧ ∃ cc,
      main int_of_str np_array [] (VideoFile (VideoStream true stream))
      = ([EvCapture; EvWriter]
         ++ (EvWriterFrame ∘ boxes_strokes <$> frames_read stream)
         ++ [EvCaptureRelease; EvWriterRelease;
             EvPrint (Success [] cc (length (concat (frames_read stream))))],
         Ok ())
      ∧ ∀ c, cc !! c = tally (count_cls c (concat (frames_read stream))).
Proof.
  split; [apply main_no_zones_image|].
  - unfold main. simpl.
    destruct (run_video_summary [] stream (no_zone_frames_ok _))
      as (cc & -> & Hcc).
    exists cc. split; [|done].
    assert (Hfr : (EvWriterFrame
                     ∘ (fun boxes => c_frame (count_boxes [] [] boxes)))
                  <$> frames_read stream
                  = EvWriterFrame ∘ boxes_strokes <$> frames_read stream);
      [|by rewrite Hfr].
    apply list_fmap_ext. intros i boxes' _. simpl.
    by rewrite count_boxes_frame.
Qed.

(** X19. A [--zones] file that exists and cannot be read or parsed is not
    replaced by the [zones.json] of the working directory, whatever that
    file holds: the run goes on without any zone, and an image that can
    be read is written back and summed up with the number of its boxes as
    the total. *)
Theorem unreadable_zone_file_runs_without_zones int_of_str np_array chars
    files arg cwd_zones boxes :
  arg ≠ ""%string → files arg = Unreadable →
  main_with_zone_file int_of_str np_array chars files (Some arg) cwd_zones
                      (Image (Some boxes))
  = ([EvImwrite (boxes_strokes boxes);
      EvPrint (Success [] (class_counts (count_boxes [] [] boxes))
                       (length boxes))], Ok ()).
Proof.
  intros Harg Hfile.
  assert (Hload : load_zones files (Some arg) cwd_zones = JList []).
  { unfold load_zones. rewrite bool_decide_eq_false_2 by done. simpl.
    by rewrite Hfile. }
  unfold main_with_zone_file. rewrite Hload. apply main_no_zones_image.
Qed.

(** X19 at a broken [z.json], beside a [zones.json] with one rectangle
    around the box of the image. *)
Lemma unreadable_zone_file_runs_without_zones_witness :
  let files path :=
    if decide (path = "z.json"%string) then Unreadable
    else Holds (JList [JList [JInt 0; JInt 0; JInt 10; JInt 10]]) in
  let boxes := [Detection "car" (4, 4, 6, 6)] in
  main_with_zone_file (fun _ => Raise ValueError) (fun _ => Raise ValueError)
                      (fun _ => []) files (Some "z.json"%string)
                      "zones.json" (Image (Some boxes))
  = ([EvImwrite (boxes_strokes boxes);
      EvPrint (Success [] (class_counts (count_boxes [] [] boxes))
                       (length boxes))], Ok ()).
Proof.
  intros files boxes.
  apply (unreadable_zone_file_runs_without_zones
           (fun _ => Raise ValueError) (fun _ => Raise ValueError)
           (fun _ => []) files "z.json" "zones.json" boxes); done.
Defined.

(** ** An image and a polygon OpenCV rejects *)




(** ** Counters only grow; the sum of a zone *)

Lemma count_in_app z c boxes boxes' :
  count_in z c (boxes ++ boxes')
  = (count_in z c boxes + count_in z c boxes')%nat.
Proof. unfold count_in. by rewrite List.filter_app, length_app. Qed.

(** X21. Counters only grow along the boxes of a frame: after more boxes
    the global count of every class, and the count of every class in
    every zone, is at least what it was. *)
Theorem counters_only_grow f zones boxes more c :
  (default 0 (class_counts (count_boxes f zones boxes) !! c)
   ≤ default 0 (class_counts (count_boxes f zones (boxes ++ more)) !! c))%nat
  ∧ Forall2 (fun (m m' : gmap string nat) =>
               (default 0 (m !! c) ≤ default 0 (m' !! c))%nat)
            (zone_counts (count_boxes f zones boxes))
            (zone_counts (count_boxes f zones (boxes ++ more))).
Proof.
  split.
  - rewrite !count_boxes_class_counts, !default_tally, count_cls_app. lia.
  - apply Forall2_same_length_lookup. split.
    + by rewrite !count_boxes_zone_counts_length.
    + intros i m m' Hm Hm'.
      destruct (lookup_lt_is_Some_2 zones i) as [z Hz].
      { apply lookup_lt_Some in Hm.
        by rewrite count_boxes_zone_counts_length in Hm. }
      destruct (count_boxes_zone_counts f zones boxes i z Hz)
        as (m1 & Hm1 & Hc1).
      destruct (count_boxes_zone_counts f zones (boxes ++ more) i z Hz)
        as (m2 & Hm2 & Hc2).
      assert (m1 = m) as -> by congruence.
      assert (m2 = m') as -> by congruence.
      rewrite Hc1, Hc2, !default_tally, count_in_app. lia.
Qed.

Lemma sum_values_zone f zones boxes i z :
  zones !! i = Some z →
  ∃ m, zone_counts (count_boxes f zones boxes) !! i = Some m
       ∧ sum_values m = count_any z boxes.
Proof.
  intros Hz. unfold count_boxes, count_any.
  induction boxes as [|box boxes IH] using rev_ind.
  - simpl. exists ∅. split; [|done].
    apply lookup_replicate_2. by eapply lookup_lt_Some.
  - destruct IH as (m & Hm & Hsum).
    rewrite foldl_app. cbn [foldl].
    rewrite count_box_zone_counts, assign_zones_lookup, Hz, Hm. simpl.
    eexists. split; [done|].
    rewrite List.filter_app, length_app. simpl.
    destruct (counted z (center box)); simpl.
    + rewrite sum_values_incr, Hsum. lia.
    + rewrite Hsum. lia.
Qed.

(** X22. After the loop over the boxes, the values of the dictionary of
    a zone add up to the number of boxes the zone counts, and so to at
    most the total of the frame. *)
Theorem zone_sum_counts_boxes_in_zone f zones boxes :
  Forall2 (fun z (m : gmap string nat) =>
             sum_values m = count_any z boxes
             ∧ (sum_values m
                ≤ sum_values (class_counts (count_boxes f zones boxes)))%nat)
          zones (zone_counts (count_boxes f zones boxes)).
Proof.
  apply Forall2_same_length_lookup. split.
  - by rewrite count_boxes_zone_counts_length.
  - intros i z m Hz Hm.
    destruct (sum_values_zone f zones boxes i z Hz) as (m' & Hm' & Hsum).
    assert (m' = m) as -> by congruence.
    split; [done|]. rewrite Hsum, count_boxes_total. unfold count_any.
    clear. induction boxes as [|b boxes IH]; simpl; [done|].
    destruct (counted z (center b)); simpl; lia.
Qed.

(** ** Records that leave no zone *)

(** X23. A record that is dropped, and a record whose zone is not
    selected, have no effect on a run: with the record taken out of the
    zone file, [main] does and prints the same. *)
Theorem record_without_selected_zone_has_no_effect int_of_str np_array
    before z after r input :
  normalize_zone int_of_str np_array z = Ok r →
  List.filter z_selected (option_list r) = [] →
  main int_of_str np_array (before ++ z :: after) input
  = main int_of_str np_array (before ++ after) input.
Proof.
  intros Hz Hsel. unfold main.
  rewrite !normalize_zones_app, normalize_zones_cons, Hz.
  destruct (normalize_zones _ _ before) as [zs|e]; [|done].
  destruct (normalize_zones _ _ after) as [zs'|e]; [|done].
  by rewrite !List.filter_app, Hsel.
Qed.

(** X23 at a record that is not selected, between two rectangles. *)
Lemma record_without_selected_zone_has_no_effect_witness :
  let ios : string → result Z := fun _ => Raise ValueError in
  let npa : list json → result ndarray := fun _ => Raise ValueError in
  let rect := JList [JInt 0; JInt 0; JInt 10; JInt 10] in
  let hidden := JDict [("selected", JBool false); ("x", JInt 5)]%string in
  let input := Image (Some [Detection "car" (20, 20, 30, 30)]) in
  main ios npa ([rect] ++ hidden :: [rect]) input
  = main ios npa ([rect] ++ [rect]) input.
Proof.
  intros ios npa rect hidden input.
  apply (record_without_selected_zone_has_no_effect ios npa [rect] hidden
           [rect] (Some (Zone (Rect (5, 0, 5, 0)) (JStr "") false)) input);
    done.
Defined.
